(** * ml_gym blueprints: requirements, subscriptions and lazy construction

    A shallow embedding of
      - [Requirement.get_subscription], [ComponentConstructable.construct],
        [get_requirement] and [has_requirement]
        (src/ml_gym/blueprints/constructables.py), and
      - [MetricFactory.get_partial_metric] (src/ml_gym/metrics/metrics.py),
    together with the properties of them that the specification states. *)

From stdpp Require Import base option list strings gmap.

Set Warnings "-register-all".

Open Scope string_scope.
Open Scope Z_scope.

(** ** Python values *)

(** The fragment of Python's object universe the two modules touch: the
    scalars, [list], [dict] (insertion ordered, hence an association list)
    and every other object (an iterator, a registry, a callable, ...), which
    the code only passes around. *)
Inductive value : Type :=
| VNone
| VBool (b : bool)
| VInt (z : Z)
| VStr (s : string)
| VList (xs : list value)
| VDict (kvs : list (value * value))
| VObj (id : positive).

(** Exceptions: the built-in ones that subscripting and calling raise, and
    any other, by the name of its class. [K] is what a [KeyError] carries. *)
Inductive exn (K : Type) : Type :=
| KeyError (k : K)
| IndexError
| TypeError
| OtherError (cls : string).
Arguments KeyError {K} k.
Arguments IndexError {K}.
Arguments TypeError {K}.
Arguments OtherError {K} cls.

(** A call either returns or raises. *)
Inductive outcome (E A : Type) : Type :=
| Ret (a : A)
| Raise (e : E).
Arguments Ret {E A} a.
Arguments Raise {E A} e.

Global Instance outcome_ret {E} : MRet (outcome E) := fun A => Ret.
Global Instance outcome_bind {E} : MBind (outcome E) := fun A B f m =>
  match m with
  | Ret a => f a
  | Raise e => Raise e
  end.
Global Instance outcome_fmap {E} : FMap (outcome E) := fun A B f m =>
  match m with
  | Ret a => Ret (f a)
  | Raise e => Raise e
  end.

Definition returns {E A} (m : outcome E A) : bool :=
  match m with Ret _ => true | Raise _ => false end.

(** In the value model an exception carries values. *)
Abbreviation res := (outcome (exn value)).

(** ** Built-in operations *)

(** [bool(v)], the truth value that [not v] negates. *)
Definition truthy (v : value) : bool :=
  match v with
  | VNone => false
  | VBool b => b
  | VInt z => negb (z =? 0)
  | VStr s => negb (String.eqb s "")
  | VList xs => match xs with [] => false | _ :: _ => true end
  | VDict kvs => match kvs with [] => false | _ :: _ => true end
  | VObj _ => true
  end.

(** [isinstance(v, int)]: [bool] is a subclass of [int]. *)
Definition isinstance_int (v : value) : bool :=
  match v with VInt _ | VBool _ => true | _ => false end.

Definition isinstance_str (v : value) : bool :=
  match v with VStr _ => true | _ => false end.

Definition isinstance_list (v : value) : bool :=
  match v with VList _ => true | _ => false end.

(** [isinstance(v, collections.abc.Mapping)]. *)
Definition isinstance_Mapping (v : value) : bool :=
  match v with VDict _ => true | _ => false end.

(** [v is None]. *)
Definition is_None (v : value) : bool :=
  match v with VNone => true | _ => false end.

(** [v.__index__()], defined for [int] and [bool] only. *)
Definition as_index (v : value) : option Z :=
  match v with
  | VInt z => Some z
  | VBool b => Some (Z.b2z b)
  | _ => None
  end.

(** Lists and dicts are unhashable. *)
Definition hashable (v : value) : bool :=
  match v with VList _ | VDict _ => false | _ => true end.

(** Equality of dict keys: [True == 1] and [False == 0]. *)
Definition key_eqb (a b : value) : bool :=
  match a, b with
  | VNone, VNone => true
  | VStr s, VStr t => String.eqb s t
  | VObj i, VObj j => Pos.eqb i j
  | _, _ =>
      match as_index a, as_index b with
      | Some x, Some y => x =? y
      | _, _ => false
      end
  end.

(** A sequence index after Python's wrap-around of negative indices. *)
Definition norm_index (n : nat) (i : Z) : option nat :=
  let j := if i <? 0 then i + Z.of_nat n else i in
  if (0 <=? j) && (j <? Z.of_nat n) then Some (Z.to_nat j) else None.

(** [xs[k]] for a list. *)
Definition list_getitem (xs : list value) (k : value) : res value :=
  match as_index k with
  | None => Raise TypeError
  | Some i =>
      match norm_index (length xs) i with
      | None => Raise IndexError
      | Some j =>
          match xs !! j with
          | Some x => Ret x
          | None => Raise IndexError
          end
      end
  end.

Fixpoint dict_find (kvs : list (value * value)) (k : value) : option value :=
  match kvs with
  | [] => None
  | (k', v) :: rest => if key_eqb k' k then Some v else dict_find rest k
  end.

(** [d[k]] for a dict. *)
Definition dict_getitem (kvs : list (value * value)) (k : value) : res value :=
  if hashable k then
    match dict_find kvs k with
    | Some v => Ret v
    | None => Raise (KeyError k)
    end
  else Raise TypeError.

(** [d[k] = v]: an existing key keeps its place, a new one goes last. *)
Fixpoint dict_setitem (kvs : list (value * value)) (k v : value) : list (value * value) :=
  match kvs with
  | [] => [(k, v)]
  | (k', v') :: rest =>
      if key_eqb k' k then (k', v) :: rest else (k', v') :: dict_setitem rest k v
  end.

Fixpoint string_nth (s : string) (n : nat) : option Ascii.ascii :=
  match s, n with
  | EmptyString, _ => None
  | String c _, O => Some c
  | String _ s', S n' => string_nth s' n'
  end.

(** [s[k]] for a str: a string of one character. *)
Definition str_getitem (s : string) (k : value) : res value :=
  match as_index k with
  | None => Raise TypeError
  | Some i =>
      match norm_index (String.length s) i with
      | None => Raise IndexError
      | Some j =>
          match string_nth s j with
          | Some c => Ret (VStr (String c EmptyString))
          | None => Raise IndexError
          end
      end
  end.

(** [c[k]]: dispatch on the container ([__getitem__]). *)
Definition getitem (c k : value) : res value :=
  match c with
  | VList xs => list_getitem xs k
  | VDict kvs => dict_getitem kvs k
  | VStr s => str_getitem s k
  | VNone | VBool _ | VInt _ | VObj _ => Raise TypeError
  end.

(** [[f(x) for x in xs]]: left to right, the first exception ends it. *)
Fixpoint list_comp (f : value -> res value) (xs : list value) : res (list value) :=
  match xs with
  | [] => Ret []
  | x :: rest =>
      match f x with
      | Ret y =>
          match list_comp f rest with
          | Ret ys => Ret (y :: ys)
          | Raise e => Raise e
          end
      | Raise e => Raise e
      end
  end.

(** [{x: f(x) for x in xs}], started from the entries [acc]. *)
Fixpoint dict_comp (f : value -> res value) (xs : list value)
    (acc : list (value * value)) : res (list (value * value)) :=
  match xs with
  | [] => Ret acc
  | x :: rest =>
      if hashable x then
        match f x with
        | Ret y => dict_comp f rest (dict_setitem acc x y)
        | Raise e => Raise e
        end
      else
        match f x with
        | Ret _ => Raise TypeError
        | Raise e => Raise e
        end
  end.

(** ** Requirement *)

(** The dataclass [Requirement]. The annotation of [subscription] is a list,
    but nothing enforces it and [get_subscription] has a branch for other
    values, so the field is a [value]. *)
Record Requirement : Type := mkRequirement {
  components : value;
  subscription : value;
}.

(** [Requirement.get_subscription]. A Python function whose last statement
    is not a [return] returns [None]. *)
Definition get_subscription (r : Requirement) : res value :=
  if negb (truthy (subscription r)) then Ret (components r)
  else
    match subscription r with
    | VList sub =>
        match sub with
        | [] => Raise IndexError
        | s0 :: _ =>
            if isinstance_int s0 && isinstance_list (components r) then
              VList <$> list_comp (getitem (components r)) sub
            else if isinstance_str s0 && isinstance_Mapping (components r) then
              VDict <$> dict_comp (getitem (components r)) sub []
            else Ret VNone
        end
    | _ => getitem (components r) (subscription r)
    end.

(** The resolver of the specification: [resolve(container, subscription)]. *)
Definition resolve (container : value) (sub : list value) : res value :=
  get_subscription (mkRequirement container (VList sub)).

(** ** ComponentConstructable *)

(** The dataclass [ComponentConstructable]: [requirements] is a dict keyed
    by requirement name, [constructed] is [None] until the node is built. *)
Record ComponentConstructable : Type := mkComponentConstructable {
  component_identifier : string;
  constructed : value;
  requirements : gmap string Requirement;
}.

Definition set_constructed (v : value) (self : ComponentConstructable) : ComponentConstructable :=
  {| component_identifier := component_identifier self;
     constructed := v;
     requirements := requirements self |}.

(** [name in self.requirements]. *)
Definition has_requirement (self : ComponentConstructable) (name : string) : bool :=
  bool_decide (is_Some (requirements self !! name)).

(** [self.requirements[name].get_subscription()]: the dict lookup raises
    [KeyError(name)] for a name that is not a key. *)
Definition get_requirement (self : ComponentConstructable) (name : string) : res value :=
  match requirements self !! name with
  | None => Raise (KeyError (VStr name))
  | Some r => get_subscription r
  end.

(** A run of the program, as far as [construct] is concerned: the node, the
    state [W] of everything else the producer reads and writes (the fields of
    the subclass, the file system, other objects), and the number of times the
    producer has been entered so far. *)
Record run (W : Type) : Type := mkRun {
  self : ComponentConstructable;
  world : W;
  calls : nat;
}.
Arguments mkRun {W} self world calls.
Arguments self {W} r.
Arguments world {W} r.
Arguments calls {W} r.

Section Construct.
Context {W : Type}.

(** The abstract method: each subclass supplies its producer. It reads the
    node and acts on the world; it returns the artifact or raises. No
    producer of the module assigns [self.constructed]. *)
Variable _construct_impl : ComponentConstructable -> W -> res value * W.

(** [ComponentConstructable.construct]. When the producer raises, the
    assignment to [self.constructed] is not reached. *)
Definition construct (st : run W) : res value * run W :=
  if is_None (constructed (self st)) then
    match _construct_impl (self st) (world st) with
    | (Ret v, w) => (Ret v, mkRun (set_constructed v (self st)) w (S (calls st)))
    | (Raise e, w) => (Raise e, mkRun (self st) w (S (calls st)))
    end
  else (Ret (constructed (self st)), st).

(** [n] calls of [construct] in a row: what each call gave, oldest first,
    and the run afterwards. A caller that catches the exception of one call
    can make the next. *)
Fixpoint construct_n (n : nat) (st : run W) : list (res value) * run W :=
  match n with
  | O => ([], st)
  | S n' =>
      let '(r, st1) := construct st in
      let '(rs, st2) := construct_n n' st1 in
      (r :: rs, st2)
  end.
End Construct.

(** ** MetricFactory *)

(** The callables that [functools.partial] wraps here. *)
Inductive callee : Type :=
| Metric.

(** A [functools.partial] object. *)
Record partial : Type := mkPartial {
  func : callee;
  args : list value;
  keywords : list (string * value);
}.

(** Keyword arguments of a call [f(k1=v1, ..., **d)]: every key of [d] is a
    str and no keyword is given twice, otherwise [TypeError]. *)
Fixpoint kwargs_extend (kw : list (string * value)) (kvs : list (value * value))
    : res (list (string * value)) :=
  match kvs with
  | [] => Ret kw
  | (VStr s, v) :: rest =>
      if existsb (String.eqb s) (kw.*1) then Raise TypeError
      else kwargs_extend (kw ++ [(s, v)]) rest
  | _ :: _ => Raise TypeError
  end.

Definition call_kwargs (kw : list (string * value)) (star : value)
    : res (list (string * value)) :=
  match star with
  | VDict kvs => kwargs_extend kw kvs
  | _ => Raise TypeError
  end.

(** [MetricFactory.get_partial_metric]; [params = None] stands for the
    parameter left out (its default is [None]). *)
Definition get_partial_metric (metric_key metric_fun : value) (params : option value)
    : res partial :=
  let params := default VNone params in
  let params := if is_None params then VDict [] else params in
  kw ← call_kwargs [("identifier", metric_key); ("metric_fun", metric_fun)] params;
  Ret (mkPartial Metric [] kw).

(** ** The same code over a store of objects

    The value model above cannot say that a call leaves its arguments alone:
    a value has no identity. Here every Python object lives at an address of
    a store, a list holds the addresses of its items, and a call returns an
    address together with the store it leaves behind. *)
Module Store.

Abbreviation loc := positive.

Inductive obj : Type :=
| ONone
| OBool (b : bool)
| OInt (z : Z)
| OStr (s : string)
| OList (items : list loc)
| ODict (entries : list (loc * loc))
| OOther.

Abbreviation store := (gmap loc obj).

(** An exception carries objects, that is, addresses. *)
Abbreviation res := (outcome (exn loc)).

(** The object at an address; nothing but an opaque object is assumed of
    an address that the store does not hold. *)
Definition deref (h : store) (l : loc) : obj := default OOther (h !! l).

Definition truthy (o : obj) : bool :=
  match o with
  | ONone => false
  | OBool b => b
  | OInt z => negb (z =? 0)
  | OStr s => negb (String.eqb s "")
  | OList items => match items with [] => false | _ :: _ => true end
  | ODict entries => match entries with [] => false | _ :: _ => true end
  | OOther => true
  end.

Definition isinstance_int (o : obj) : bool :=
  match o with OInt _ | OBool _ => true | _ => false end.

Definition isinstance_str (o : obj) : bool :=
  match o with OStr _ => true | _ => false end.

Definition isinstance_list (o : obj) : bool :=
  match o with OList _ => true | _ => false end.

Definition isinstance_Mapping (o : obj) : bool :=
  match o with ODict _ => true | _ => false end.

Definition as_index (o : obj) : option Z :=
  match o with
  | OInt z => Some z
  | OBool b => Some (Z.b2z b)
  | _ => None
  end.

Definition hashable (o : obj) : bool :=
  match o with OList _ | ODict _ => false | _ => true end.

(** Equality of dict keys; objects without a value of their own are equal
    only to themselves. *)
Definition key_eqb (h : store) (a b : loc) : bool :=
  match deref h a, deref h b with
  | ONone, ONone => true
  | OStr s, OStr t => String.eqb s t
  | OOther, OOther => Pos.eqb a b
  | oa, ob =>
      match as_index oa, as_index ob with
      | Some x, Some y => x =? y
      | _, _ => false
      end
  end.

Definition list_getitem (h : store) (items : list loc) (k : loc) : res loc :=
  match as_index (deref h k) with
  | None => Raise TypeError
  | Some i =>
      match norm_index (length items) i with
      | None => Raise IndexError
      | Some j =>
          match items !! j with
          | Some x => Ret x
          | None => Raise IndexError
          end
      end
  end.

Fixpoint dict_find (h : store) (entries : list (loc * loc)) (k : loc) : option loc :=
  match entries with
  | [] => None
  | (k', v) :: rest => if key_eqb h k' k then Some v else dict_find h rest k
  end.

Definition dict_getitem (h : store) (entries : list (loc * loc)) (k : loc) : res loc :=
  if hashable (deref h k) then
    match dict_find h entries k with
    | Some v => Ret v
    | None => Raise (KeyError k)
    end
  else Raise TypeError.

Fixpoint dict_setitem (h : store) (entries : list (loc * loc)) (k v : loc)
    : list (loc * loc) :=
  match entries with
  | [] => [(k, v)]
  | (k', v') :: rest =>
      if key_eqb h k' k then (k', v) :: rest
      else (k', v') :: dict_setitem h rest k v
  end.

(** Allocation: the new object goes to an address not in use. *)
Definition alloc (h : store) (o : obj) : loc * store :=
  let l := fresh (dom h) in (l, <[l := o]> h).

(** [s[k]] for a str makes a new str object. *)
Definition str_getitem (h : store) (s : string) (k : loc) : res loc * store :=
  match as_index (deref h k) with
  | None => (Raise TypeError, h)
  | Some i =>
      match norm_index (String.length s) i with
      | None => (Raise IndexError, h)
      | Some j =>
          match string_nth s j with
          | Some c =>
              let '(l, h') := alloc h (OStr (String c EmptyString)) in (Ret l, h')
          | None => (Raise IndexError, h)
          end
      end
  end.

(** [c[k]] where [c] is known to be a list or a dict: no allocation. *)
Definition getitem_container (h : store) (c k : loc) : res loc :=
  match deref h c with
  | OList items => list_getitem h items k
  | ODict entries => dict_getitem h entries k
  | _ => Raise TypeError
  end.

Definition getitem (h : store) (c k : loc) : res loc * store :=
  match deref h c with
  | OStr s => str_getitem h s k
  | _ => (getitem_container h c k, h)
  end.

Fixpoint list_comp (f : loc -> res loc) (xs : list loc) : res (list loc) :=
  match xs with
  | [] => Ret []
  | x :: rest =>
      match f x with
      | Ret y =>
          match list_comp f rest with
          | Ret ys => Ret (y :: ys)
          | Raise e => Raise e
          end
      | Raise e => Raise e
      end
  end.

Fixpoint dict_comp (h : store) (f : loc -> res loc) (xs : list loc)
    (acc : list (loc * loc)) : res (list (loc * loc)) :=
  match xs with
  | [] => Ret acc
  | x :: rest =>
      if hashable (deref h x) then
        match f x with
        | Ret y => dict_comp h f rest (dict_setitem h acc x y)
        | Raise e => Raise e
        end
      else
        match f x with
        | Ret _ => Raise TypeError
        | Raise e => Raise e
        end
  end.

Record Requirement : Type := mkRequirement {
  components : loc;
  subscription : loc;
}.

(** [Requirement.get_subscription] over the store. The two comprehensions
    build a new list and a new dict; the other branches return an object
    that exists already, and the fall-through returns [None]: the store does
    not say where the [None] singleton lives, so it is handed out as one more
    [ONone] object. *)
Definition get_subscription (h : store) (r : Requirement) : res loc * store :=
  if negb (truthy (deref h (subscription r))) then (Ret (components r), h)
  else
    match deref h (subscription r) with
    | OList sub =>
        match sub with
        | [] => (Raise IndexError, h)
        | s0 :: _ =>
            if isinstance_int (deref h s0) && isinstance_list (deref h (components r)) then
              match list_comp (getitem_container h (components r)) sub with
              | Ret items => let '(l, h') := alloc h (OList items) in (Ret l, h')
              | Raise e => (Raise e, h)
              end
            else if isinstance_str (deref h s0) && isinstance_Mapping (deref h (components r)) then
              match dict_comp h (getitem_container h (components r)) sub [] with
              | Ret entries => let '(l, h') := alloc h (ODict entries) in (Ret l, h')
              | Raise e => (Raise e, h)
              end
            else let '(l, h') := alloc h ONone in (Ret l, h')
        end
    | _ => getitem h (components r) (subscription r)
    end.

(** The addresses an object holds. *)
Definition refs (o : obj) : list loc :=
  match o with
  | OList items => items
  | ODict entries => (entries.*1 ++ entries.*2)%list
  | _ => []
  end.

(** The store holds an object at the address [a]. *)
Definition held (h : store) (a : loc) : Prop := is_Some (h !! a).

Global Instance held_dec h a : Decision (held h a).
Proof. unfold held. apply _. Defined.

(** No object of the store holds an address the store lacks. *)
Definition closed (h : store) : Prop :=
  map_Forall (fun _ o => Forall (held h) (refs o)) h.

Global Instance closed_dec h : Decision (closed h).
Proof. unfold closed. apply _. Defined.

(** What a call does to the store, as a plan: hand out an object that
    exists, or make a new one. *)
Inductive plan : Type :=
| Existing (l : loc)
| New (o : obj).

Definition commit (h : store) (p : res plan) : res loc * store :=
  match p with
  | Ret (Existing l) => (Ret l, h)
  | Ret (New o) => let '(l, h') := alloc h o in (Ret l, h')
  | Raise e => (Raise e, h)
  end.

Definition str_getitem_plan (h : store) (s : string) (k : loc) : res plan :=
  match as_index (deref h k) with
  | None => Raise TypeError
  | Some i =>
      match norm_index (String.length s) i with
      | None => Raise IndexError
      | Some j =>
          match string_nth s j with
          | Some c => Ret (New (OStr (String c EmptyString)))
          | None => Raise IndexError
          end
      end
  end.

Definition getitem_plan (h : store) (c k : loc) : res plan :=
  match deref h c with
  | OStr s => str_getitem_plan h s k
  | _ => Existing <$> getitem_container h c k
  end.

Definition get_subscription_plan (h : store) (r : Requirement) : res plan :=
  if negb (truthy (deref h (subscription r))) then Ret (Existing (components r))
  else
    match deref h (subscription r) with
    | OList sub =>
        match sub with
        | [] => Raise IndexError
        | s0 :: _ =>
            if isinstance_int (deref h s0) && isinstance_list (deref h (components r)) then
              (fun items => New (OList items))
                <$> list_comp (getitem_container h (components r)) sub
            else if isinstance_str (deref h s0) && isinstance_Mapping (deref h (components r)) then
              (fun entries => New (ODict entries))
                <$> dict_comp h (getitem_container h (components r)) sub []
            else Ret (New ONone)
        end
    | _ => getitem_plan h (components r) (subscription r)
    end.

(** The outcomes [oa], in the store [ha], and [ob], in the store [hb], are
    the same: the same exception, or objects with the same content. *)
Definition same_outcome (ha hb : store) (oa ob : res loc) : Prop :=
  match oa, ob with
  | Ret la, Ret lb => held ha la /\ ha !! la = hb !! lb
  | Raise ea, Raise eb => ea = eb
  | _, _ => False
  end.

End Store.

(** ** The value of a stored object *)

(** [repr h l v]: read through the store [h], the object at [l] is the value
    [v]. An opaque object is known by its address. *)
Inductive repr (h : Store.store) : Store.loc -> value -> Prop :=
| repr_None l : h !! l = Some Store.ONone -> repr h l VNone
| repr_Bool l b : h !! l = Some (Store.OBool b) -> repr h l (VBool b)
| repr_Int l z : h !! l = Some (Store.OInt z) -> repr h l (VInt z)
| repr_Str l s : h !! l = Some (Store.OStr s) -> repr h l (VStr s)
| repr_List l items vs :
    h !! l = Some (Store.OList items) ->
    Forall2 (repr h) items vs ->
    repr h l (VList vs)
| repr_Dict l entries kvs :
    h !! l = Some (Store.ODict entries) ->
    Forall2 (fun e kv => repr h e.1 kv.1 /\ repr h e.2 kv.2) entries kvs ->
    repr h l (VDict kvs)
| repr_Other l : h !! l = Some Store.OOther -> repr h l (VObj l).

(** The same for a dict entry, an exception, an optional result and the
    outcome of a call. *)
Definition repr_entry (h : Store.store) (e : Store.loc * Store.loc) (kv : value * value) : Prop :=
  repr h e.1 kv.1 /\ repr h e.2 kv.2.

Definition repr_exn (h : Store.store) (e : exn Store.loc) (e' : exn value) : Prop :=
  match e, e' with
  | KeyError k, KeyError vk => repr h k vk
  | IndexError, IndexError => True
  | TypeError, TypeError => True
  | OtherError c, OtherError c' => c = c'
  | _, _ => False
  end.

Definition repr_option (h : Store.store) (o : option Store.loc) (o' : option value) : Prop :=
  match o, o' with
  | Some l, Some v => repr h l v
  | None, None => True
  | _, _ => False
  end.

Definition repr_res {A B} (R : A -> B -> Prop) (h : Store.store)
    (o : Store.res A) (o' : res B) : Prop :=
  match o, o' with
  | Ret a, Ret b => R a b
  | Raise e, Raise e' => repr_exn h e e'
  | _, _ => False
  end.

(** The outcome [out] of a call in the store model is the outcome [o'] of
    the call in the value model: it returns an object whose value is the
    value returned there, or raises the same exception. *)
Definition refines (out : Store.res Store.loc * Store.store) (o' : res value) : Prop :=
  repr_res (repr out.2) out.2 out.1 o'.

(** ** More built-ins *)

(** [list(range(n))]: [0, ..., n-1], empty when [n <= 0]; [n] is an int. *)
Definition py_range (n : value) : res (list value) :=
  match as_index n with
  | Some z => Ret (VInt <$> (Z.of_nat <$> seq 0 (Z.to_nat z)))
  | None => Raise TypeError
  end.

(** [name in names] for a list of str: only a str equals a str. *)
Definition in_strs (name : value) (names : list string) : bool :=
  match name with
  | VStr s => existsb (String.eqb s) names
  | _ => false
  end.

(** [d.items()]: the built-in scalars and lists have no such method, and
    none is assumed of an opaque object. *)
Definition dict_items (d : value) : res (list (value * value)) :=
  match d with
  | VDict kvs => Ret kvs
  | _ => Raise (OtherError "AttributeError")
  end.

(** [{name: g(name, x) for name, x in items if cond(name, x)}], started from
    the entries [acc]. *)
Fixpoint dict_comp_items (cond : value -> value -> bool)
    (g : value -> value -> res value) (items acc : list (value * value))
    : res (list (value * value)) :=
  match items with
  | [] => Ret acc
  | (name, x) :: rest =>
      if cond name x then
        match g name x with
        | Ret y =>
            if hashable name then dict_comp_items cond g rest (dict_setitem acc name y)
            else Raise TypeError
        | Raise e => Raise e
        end
      else dict_comp_items cond g rest acc
  end.

(** [acc.update(kvs)]: the entries of [kvs] in their order. *)
Definition dict_update (acc kvs : list (value * value)) : list (value * value) :=
  fold_left (fun acc kv => dict_setitem acc kv.1 kv.2) kvs acc.

(** The dict display [{**a, **b}]: both operands are mappings. *)
Definition dict_merge (a b : value) : res value :=
  match a, b with
  | VDict x, VDict y => Ret (VDict (dict_update (dict_update [] x) y))
  | _, _ => Raise TypeError
  end.

(** ** The producers of the dataset nodes

    The factories of [ml_gym.data_handling] and [data_stack] that the
    producers call are outside these files: each is a parameter, a function
    that returns or raises. *)

(** [{name: f(iterator) if name in applicable_splits else iterator
      for name, iterator in d.items()}]: the body that the producers of
    [FilteredLabelsIteratorConstructable], [IteratorViewConstructable] and
    [MappedLabelsIteratorConstructable] share. *)
Definition map_applicable_splits (f : value -> res value)
    (applicable_splits : list string) (d : value) : res value :=
  items ← dict_items d;
  VDict <$> dict_comp_items (fun _ _ => true)
              (fun name iterator =>
                 if in_strs name applicable_splits then f iterator else Ret iterator)
              items [].

Module DatasetIteratorConstructable.
Record t : Type := mk {
  base : ComponentConstructable;
  dataset_identifier : string;
  splits : list string;
}.

Section Producer.
(** [dataset_repository.get(dataset_identifier, split)], a pair. *)
Variable repository_get : value -> value -> value -> res (value * value).
(** [MetaFactory.get_dataset_meta(identifier=, dataset_name=, dataset_tag=,
    iterator_meta=)]. *)
Variable get_dataset_meta : value -> value -> value -> value -> res value.
(** [ModelGymInformedIteratorFactory.get_dataset_iterator(iterator, meta)]. *)
Variable get_dataset_iterator : value -> value -> res value.

(** The [for split in self.splits] loop, from the dict [dataset_dict]. *)
Fixpoint fill (self : t) (dataset_repository : value) (todo : list string)
    (dataset_dict : list (value * value)) : res (list (value * value)) :=
  match todo with
  | [] => Ret dataset_dict
  | split :: rest =>
      match repository_get dataset_repository
              (VStr (dataset_identifier self)) (VStr split) with
      | Raise e => Raise e
      | Ret (iterator, iterator_meta) =>
          match get_dataset_meta (VStr (component_identifier (base self)))
                  (VStr (dataset_identifier self)) (VStr split) iterator_meta with
          | Raise e => Raise e
          | Ret dataset_meta =>
              match get_dataset_iterator iterator dataset_meta with
              | Raise e => Raise e
              | Ret it =>
                  fill self dataset_repository rest
                    (dict_setitem dataset_dict (VStr split) it)
              end
          end
      end
  end.

Definition _construct_impl (self : t) : res value :=
  dataset_repository ← get_requirement (base self) "repository";
  VDict <$> fill self dataset_repository (splits self) [].
End Producer.
End DatasetIteratorConstructable.

Module DatasetIteratorSplitsConstructable.
Record t : Type := mk {
  base : ComponentConstructable;
  split_configs : value;
}.

Section Producer.
(** [ModelGymInformedIteratorFactory.get_splitted_iterators(identifier,
    iterators, split_configs)]. *)
Variable get_splitted_iterators : value -> value -> value -> res value.

Definition _construct_impl (self : t) : res value :=
  dataset_iterators_dict ← get_requirement (base self) "iterators";
  splitted_iterators_dict ←
    get_splitted_iterators (VStr (component_identifier (base self)))
      dataset_iterators_dict (split_configs self);
  dict_merge dataset_iterators_dict splitted_iterators_dict.
End Producer.
End DatasetIteratorSplitsConstructable.

Module CombinedDatasetIteratorConstructable.
Record t : Type := mk {
  base : ComponentConstructable;
  combine_configs : value;
}.

Section Producer.
(** [ModelGymInformedIteratorFactory.get_combined_iterators(identifier,
    iterators, combine_configs)]. *)
Variable get_combined_iterators : value -> value -> value -> res value.

Definition _construct_impl (self : t) : res value :=
  dataset_iterators_dict ← get_requirement (base self) "iterators";
  combined_iterators_dict ←
    get_combined_iterators (VStr (component_identifier (base self)))
      dataset_iterators_dict (combine_configs self);
  dict_merge dataset_iterators_dict combined_iterators_dict.
End Producer.
End CombinedDatasetIteratorConstructable.

Module FilteredLabelsIteratorConstructable.
Record t : Type := mk {
  base : ComponentConstructable;
  filtered_labels : value;
  applicable_splits : list string;
}.

Section Producer.
(** [ModelGymInformedIteratorFactory.get_filtered_labels_iterator(identifier,
    iterator, filtered_labels)]. *)
Variable get_filtered_labels_iterator : value -> value -> value -> res value.

Definition _construct_impl (self : t) : res value :=
  dataset_iterators_dict ← get_requirement (base self) "iterators";
  map_applicable_splits
    (fun iterator =>
       get_filtered_labels_iterator (VStr (component_identifier (base self)))
         iterator (filtered_labels self))
    (applicable_splits self) dataset_iterators_dict.
End Producer.
End FilteredLabelsIteratorConstructable.

Module IteratorViewConstructable.
Record t : Type := mk {
  base : ComponentConstructable;
  num_indices : value;
  applicable_splits : list string;
}.

(** [sample_selection_fun(iterator, num_indices)]. *)
Definition sample_selection_fun (iterator num_indices : value) : res value :=
  VList <$> py_range num_indices.

(** [partial(sample_selection_fun, num_indices=n)]: the bound keyword, and
    the call of the partial object with the one argument left. *)
Record selection_partial : Type := mkSelectionPartial {
  bound_num_indices : value;
}.

Definition call_selection_partial (p : selection_partial) (iterator : value) : res value :=
  sample_selection_fun iterator (bound_num_indices p).

Section Producer.
(** [ModelGymInformedIteratorFactory.get_iterator_view(identifier, iterator,
    selection_fun)]. *)
Variable get_iterator_view : value -> value -> selection_partial -> res value.

Definition _construct_impl (self : t) : res value :=
  dataset_iterators_dict ← get_requirement (base self) "iterators";
  let partial_selection_fun := mkSelectionPartial (num_indices self) in
  map_applicable_splits
    (fun iterator =>
       get_iterator_view (VStr (component_identifier (base self)))
         iterator partial_selection_fun)
    (applicable_splits self) dataset_iterators_dict.
End Producer.
End IteratorViewConstructable.

Module MappedLabelsIteratorConstructable.
Record t : Type := mk {
  base : ComponentConstructable;
  mappings : value;
  applicable_splits : list string;
}.

Section Producer.
(** [ModelGymInformedIteratorFactory.get_mapped_labels_iterator(identifier,
    iterator, mappings)]. *)
Variable get_mapped_labels_iterator : value -> value -> value -> res value.

Definition _construct_impl (self : t) : res value :=
  dataset_iterators_dict ← get_requirement (base self) "iterators";
  map_applicable_splits
    (fun iterator =>
       get_mapped_labels_iterator (VStr (component_identifier (base self)))
         iterator (mappings self))
    (applicable_splits self) dataset_iterators_dict.
End Producer.
End MappedLabelsIteratorConstructable.

Module FeatureEncodedIteratorConstructable.
Record t : Type := mk {
  base : ComponentConstructable;
  applicable_splits : list string;
  feature_encoding_configs : value;
}.

Section Producer.
(** [ModelGymInformedIteratorFactory.get_feature_encoded_iterators(identifier,
    iterators, feature_encoding_configs)]. *)
Variable get_feature_encoded_iterators : value -> value -> value -> res value.

Definition _construct_impl (self : t) : res value :=
  dataset_iterators_dict ← get_requirement (base self) "iterators";
  feature_encoded_iterators ←
    get_feature_encoded_iterators (VStr (component_identifier (base self)))
      dataset_iterators_dict (feature_encoding_configs self);
  items ← dict_items feature_encoded_iterators;
  VDict <$> dict_comp_items (fun name _ => in_strs name (applicable_splits self))
              (fun _ iterator => Ret iterator) items [].
End Producer.
End FeatureEncodedIteratorConstructable.

(** ** Metric and the call of a partial object *)

Module MetricClass.
(** An instance of [Metric]: the attributes that [__init__] sets. *)
Record t : Type := mk {
  tag : value;
  identifier : value;
  metric_fun : value;
  params : value;
  target_subscription_key : value;
  prediction_subscription_key : value;
}.

(** The parameters of [__init__] after [self], in their order; none has a
    default. *)
Definition parameters : list string :=
  ["tag"; "identifier"; "target_subscription_key"; "prediction_subscription_key";
   "metric_fun"; "params"].

Fixpoint kw_find (kw : list (string * value)) (name : string) : option value :=
  match kw with
  | [] => None
  | (k, v) :: rest => if String.eqb k name then Some v else kw_find rest name
  end.

(** Binding the arguments of a call to parameters without defaults: the
    positional arguments fill the first parameters; a keyword must name one
    of the parameters left; every parameter gets a value. Anything else is a
    [TypeError]. The result is the values in parameter order. *)
Definition bind_args (names : list string) (args : list value)
    (kw : list (string * value)) : res (list value) :=
  if (length names <? length args)%nat then Raise TypeError
  else
    let rest := drop (length args) names in
    if forallb (fun k => existsb (String.eqb k) rest) (kw.*1) then
      match mapM (kw_find kw) rest with
      | Some vs => Ret (args ++ vs)%list
      | None => Raise TypeError
      end
    else Raise TypeError.

(** The call of [Metric] with positional arguments [args] and keyword
    arguments [kw]. *)
Definition __init__ (args : list value) (kw : list (string * value)) : res t :=
  match bind_args parameters args kw with
  | Ret [a_tag; a_identifier; a_target; a_prediction; a_metric_fun; a_params] =>
      Ret {| tag := a_tag; identifier := a_identifier; metric_fun := a_metric_fun;
             params := a_params; target_subscription_key := a_target;
             prediction_subscription_key := a_prediction |}
  | Ret _ => Raise TypeError
  | Raise e => Raise e
  end.
End MetricClass.

(** [d[k] = v] on keyword arguments. *)
Fixpoint kw_set (kw : list (string * value)) (k : string) (v : value)
    : list (string * value) :=
  match kw with
  | [] => [(k, v)]
  | (k', v') :: rest =>
      if String.eqb k' k then (k', v) :: rest else (k', v') :: kw_set rest k v
  end.

(** [partial.__call__] with arguments [call_args] and keyword arguments
    [kw]: the call of the wrapped callable with
    the positional arguments of the partial object before [args], and with its
    keywords updated by [kw]. *)
Definition partial_call (p : partial) (call_args : list value)
    (kw : list (string * value)) : res MetricClass.t :=
  match func p with
  | Metric =>
      MetricClass.__init__ (args p ++ call_args)%list
        (fold_left (fun acc kv => kw_set acc kv.1 kv.2) kw (keywords p))
  end.

(** * Vocabulary of the properties *)

(** The indices Python accepts for a sequence of length [n]. *)
Definition valid_index (n : nat) (z : Z) : Prop :=
  - Z.of_nat n <= z < Z.of_nat n.

Global Instance valid_index_dec n z : Decision (valid_index n z).
Proof. unfold valid_index. apply _. Defined.

(** The item a valid index denotes: counted from the end when negative. *)
Definition item_at (xs : list value) (z : Z) : value :=
  nth (Z.to_nat (z mod Z.of_nat (length xs))) xs VNone.

(** The two tests of the inner [if]/[elif], on the first selector. *)
Definition kind_matches (s0 c : value) : bool :=
  isinstance_int s0 && isinstance_list c || isinstance_str s0 && isinstance_Mapping c.

(** The selectors in the order of their first occurrence: the order in which
    a dict comprehension over them creates its keys. [seen] are the keys
    created so far. *)
Fixpoint first_occurrences (seen ss : list string) : list string :=
  match ss with
  | [] => []
  | s :: rest =>
      if decide (s ∈ seen) then first_occurrences seen rest
      else s :: first_occurrences (seen ++ [s]) rest
  end.

(** The entry [k: container[k]] for the selector [s]. *)
Definition selected (kvs : list (value * value)) (s : string) : value * value :=
  (VStr s, default VNone (dict_find kvs (VStr s))).

Definition present (kvs : list (value * value)) (s : string) : Prop :=
  is_Some (dict_find kvs (VStr s)).

(** What [get_requirement(name)] raises when [name] is no key of
    [self.requirements]: the [KeyError] of the dict lookup. *)
Definition MissingRequirement (name : string) : exn value := KeyError (VStr name).

(** A producer that counts its runs in the world and returns [v]. *)
Definition counting_producer (v : value) (_ : ComponentConstructable) (w : nat)
    : res value * nat :=
  (Ret v, S w).

(** A producer that fails on its first run and succeeds from then on. *)
Definition flaky_producer (_ : ComponentConstructable) (w : nat) : res value * nat :=
  match w with
  | O => (Raise (OtherError "ConstructionError"), 1%nat)
  | S _ => (Ret (VStr "artifact"), S w)
  end.

Definition fresh_node : ComponentConstructable := mkComponentConstructable "node" VNone ∅.

(** A store with the list [["a", "b", "c"]] at address 1 and the
    subscription [[2, 0]] at address 2. *)
Definition abc_store : Store.store :=
  {[ 1%positive := Store.OList [4; 5; 6]%positive;
     2%positive := Store.OList [7; 8]%positive;
     4%positive := Store.OStr "a"; 5%positive := Store.OStr "b";
     6%positive := Store.OStr "c";
     7%positive := Store.OInt 2; 8%positive := Store.OInt 0 ]}.


(** A dict as Python keeps it: the keys are hashable and no two are equal. *)
Fixpoint dict_wf (kvs : list (value * value)) : Prop :=
  match kvs with
  | [] => True
  | (k, _) :: rest => hashable k = true /\ dict_find rest k = None /\ dict_wf rest
  end.

(** What the producers that work on the applicable splits give for the
    entries [kvs] of the dict they are given: a dict with the same keys in the
    same order, where the value of an applicable split is what [f] returned
    for it and every other value is the one of [kvs]; or the exception that
    [f] raised for an applicable split. *)
Definition on_applicable_splits (f : value -> res value) (applicable : list string)
    (kvs : list (value * value)) (o : res value) : Prop :=
  match o with
  | Ret r =>
      exists out, r = VDict out
        /\ Forall2 (fun kv kv' =>
                     kv'.1 = kv.1
                     /\ if in_strs kv.1 applicable then f kv.2 = Ret kv'.2
                        else kv'.2 = kv.2) kvs out
  | Raise e =>
      exists kv, kv ∈ kvs /\ in_strs kv.1 applicable = true /\ f kv.2 = Raise e
  end.

(** A node that requires, as ["iterators"], a dict of two splits. *)
Definition two_splits : list (value * value) :=
  [(VStr "train", VObj 1); (VStr "val", VObj 2)].

Definition splits_node : ComponentConstructable :=
  mkComponentConstructable "view" VNone
    {[ "iterators" := mkRequirement (VDict two_splits) (VList []) ]}.

(** A factory that wraps the iterator it is given into a list. *)
Definition wrapping_factory {A : Type} (_ iterator : value) (_ : A) : res value :=
  Ret (VList [iterator]).

(** A dict with str keys, from its entries. *)
Definition str_keyed (skvs : list (string * value)) : list (value * value) :=
  (fun kv => (VStr kv.1, kv.2)) <$> skvs.

(** The keywords of a partial object updated by those of a call. *)
Definition kw_merge (base kw : list (string * value)) : list (string * value) :=
  fold_left (fun acc kv => kw_set acc kv.1 kv.2) kw base.

(** * Properties *)

(** ** Worked calls of the resolver *)

Example resolve_list_2_0 :
  resolve (VList [VStr "a"; VStr "b"; VStr "c"]) [VInt 2; VInt 0]
  = Ret (VList [VStr "c"; VStr "a"]).
Proof. reflexivity. Qed.

Example resolve_list_negative :
  resolve (VList [VStr "a"; VStr "b"; VStr "c"]) [VInt (-1); VInt (-1)]
  = Ret (VList [VStr "c"; VStr "c"]).
Proof. reflexivity. Qed.

Example resolve_list_out_of_range :
  resolve (VList [VStr "a"; VStr "b"; VStr "c"]) [VInt 0; VInt 3] = Raise IndexError.
Proof. reflexivity. Qed.

Example resolve_dict_test_train :
  resolve (VDict [(VStr "train", VInt 1); (VStr "val", VInt 2); (VStr "test", VInt 3)])
          [VStr "test"; VStr "train"]
  = Ret (VDict [(VStr "test", VInt 3); (VStr "train", VInt 1)]).
Proof. reflexivity. Qed.

Example resolve_dict_missing_key :
  resolve (VDict [(VStr "train", VInt 1)]) [VStr "train"; VStr "val"]
  = Raise (KeyError (VStr "val")).
Proof. reflexivity. Qed.

Example resolve_dict_repeated_selector :
  resolve (VDict [(VStr "x", VInt 1); (VStr "y", VInt 2)]) [VStr "y"; VStr "x"; VStr "y"]
  = Ret (VDict [(VStr "y", VInt 2); (VStr "x", VInt 1)]).
Proof. reflexivity. Qed.

(** Only the first selector is tested: a later selector of another kind is
    rejected by the indexing itself. *)
Example resolve_mixed_selectors :
  resolve (VList [VStr "a"; VStr "b"]) [VInt 0; VStr "x"] = Raise TypeError.
Proof. reflexivity. Qed.

Example single_selector :
  get_subscription (mkRequirement (VDict [(VStr "train", VInt 1)]) (VStr "train"))
  = Ret (VInt 1).
Proof. reflexivity. Qed.

Example single_selector_int :
  get_subscription (mkRequirement (VList [VStr "a"; VStr "b"]) (VInt 1))
  = Ret (VStr "b").
Proof. reflexivity. Qed.

(** [0] and [""] are falsy: as a subscription they select the whole
    container, like the empty list. *)
Example single_selector_zero :
  get_subscription (mkRequirement (VList [VStr "a"; VStr "b"]) (VInt 0))
  = Ret (VList [VStr "a"; VStr "b"]).
Proof. reflexivity. Qed.

(** ** Indexing a list *)

Lemma norm_index_valid n z :
  valid_index n z -> norm_index n z = Some (Z.to_nat (z mod Z.of_nat n)).
Proof.
  unfold valid_index, norm_index. intros Hv.
  destruct (Z.ltb_spec z 0) as [Hneg | Hpos].
  - assert (Hm : z mod Z.of_nat n = z + Z.of_nat n).
    { symmetry. apply Z.mod_unique with (q := -1); lia. }
    rewrite Hm.
    destruct (Z.leb_spec 0 (z + Z.of_nat n)); [| lia].
    destruct (Z.ltb_spec (z + Z.of_nat n) (Z.of_nat n)); [reflexivity | lia].
  - rewrite Z.mod_small by lia.
    destruct (Z.leb_spec 0 z); [| lia].
    destruct (Z.ltb_spec z (Z.of_nat n)); [reflexivity | lia].
Qed.

Lemma norm_index_invalid n z :
  ~ valid_index n z -> norm_index n z = None.
Proof.
  unfold valid_index, norm_index. intros Hv.
  destruct (Z.ltb_spec z 0).
  - destruct (Z.leb_spec 0 (z + Z.of_nat n)); [| reflexivity].
    destruct (Z.ltb_spec (z + Z.of_nat n) (Z.of_nat n)); [lia | reflexivity].
  - destruct (Z.leb_spec 0 z); [| reflexivity].
    destruct (Z.ltb_spec z (Z.of_nat n)); [lia | reflexivity].
Qed.

Lemma norm_index_lt n z j : norm_index n z = Some j -> (j < n)%nat.
Proof.
  unfold norm_index.
  destruct (Z.leb_spec 0 (if z <? 0 then z + Z.of_nat n else z)); [| discriminate].
  destruct (Z.ltb_spec (if z <? 0 then z + Z.of_nat n else z) (Z.of_nat n));
    [| discriminate].
  simpl. intros [= <-]. lia.
Qed.

Lemma list_getitem_valid xs z :
  valid_index (length xs) z -> list_getitem xs (VInt z) = Ret (item_at xs z).
Proof.
  intros Hv. unfold list_getitem, item_at. simpl.
  rewrite (norm_index_valid _ _ Hv).
  pose proof (norm_index_lt _ _ _ (norm_index_valid _ _ Hv)) as Hlt.
  rewrite nth_lookup.
  destruct (lookup_lt_is_Some_2 xs _ Hlt) as [x Hx].
  rewrite Hx. reflexivity.
Qed.

Lemma list_getitem_invalid xs z :
  ~ valid_index (length xs) z -> list_getitem xs (VInt z) = Raise IndexError.
Proof.
  intros Hv. unfold list_getitem. simpl.
  rewrite (norm_index_invalid _ _ Hv). reflexivity.
Qed.

Lemma list_comp_valid xs zs :
  Forall (valid_index (length xs)) zs ->
  list_comp (list_getitem xs) (VInt <$> zs) = Ret (item_at xs <$> zs).
Proof.
  induction 1 as [| z zs Hz _ IH]; [reflexivity |].
  rewrite !fmap_cons. simpl.
  rewrite (list_getitem_valid _ _ Hz), IH. reflexivity.
Qed.

Lemma list_comp_invalid xs zs :
  ~ Forall (valid_index (length xs)) zs ->
  list_comp (list_getitem xs) (VInt <$> zs) = Raise IndexError.
Proof.
  induction zs as [| z zs IH]; intros Hn.
  - exfalso. apply Hn. constructor.
  - rewrite fmap_cons. simpl.
    destruct (decide (valid_index (length xs) z)) as [Hz | Hz].
    + rewrite (list_getitem_valid _ _ Hz), IH; [reflexivity |].
      intros Hall. apply Hn. constructor; assumption.
    + rewrite (list_getitem_invalid _ _ Hz). reflexivity.
Qed.

(** With a list container and integer selectors the first branch of the
    inner test is the one taken. *)
Lemma resolve_list_ints xs z zs :
  resolve (VList xs) (VInt <$> z :: zs)
  = VList <$> list_comp (list_getitem xs) (VInt <$> z :: zs).
Proof. reflexivity. Qed.

(** C4. For a list container [xs] and a non-empty list [zs] of integer
    selectors, [get_subscription] is the comprehension
    [[xs[z] for z in zs]]: when every selector is an index of [xs] it returns
    the new list whose n-th item is the item of [xs] at the n-th selector, in
    the order of the selectors and with their repetitions; when some selector
    is no index of [xs] the comprehension, and with it the call, raises
    [IndexError]. *)
Theorem get_subscription_list_of_ints (xs : list value) (zs : list Z) :
  zs <> [] ->
  (Forall (valid_index (length xs)) zs ->
     resolve (VList xs) (VInt <$> zs) = Ret (VList (item_at xs <$> zs)))
  /\ (~ Forall (valid_index (length xs)) zs ->
     resolve (VList xs) (VInt <$> zs) = Raise IndexError).
Proof.
  intros Hne. destruct zs as [| z zs]; [congruence |].
  rewrite resolve_list_ints. split; intros H.
  - rewrite (list_comp_valid _ _ H). reflexivity.
  - rewrite (list_comp_invalid _ _ H). reflexivity.
Qed.

Lemma get_subscription_list_of_ints_abc :
  [2; 0] <> [] /\
  Forall (valid_index 3) [2; 0] /\
  resolve (VList [VStr "a"; VStr "b"; VStr "c"]) [VInt 2; VInt 0]
  = Ret (VList [VStr "c"; VStr "a"]).
Proof.
  assert (Hne : [2; 0] <> []) by discriminate.
  assert (Hv : Forall (valid_index 3) [2; 0]).
  { repeat constructor; unfold valid_index; simpl; lia. }
  split; [exact Hne |]. split; [exact Hv |].
  exact (proj1 (get_subscription_list_of_ints
                  [VStr "a"; VStr "b"; VStr "c"] [2; 0] Hne) Hv).
Defined.

(** C6. With the empty subscription [get_subscription] returns the
    container as it is, whatever the container: in the value model the very
    value, and in the store model the very object, with the store left as it
    was. *)
Theorem get_subscription_empty_subscription :
  (forall c : value, resolve c [] = Ret c)
  /\ (forall (h : Store.store) (r : Store.Requirement),
        Store.deref h (Store.subscription r) = Store.OList [] ->
        Store.get_subscription h r = (Ret (Store.components r), h)).
Proof.
  split.
  - intros c. reflexivity.
  - intros h r Hs. unfold Store.get_subscription. rewrite Hs. reflexivity.
Qed.

Lemma get_subscription_empty_subscription_at_dict :
  resolve (VDict [(VStr "a", VInt 1)]) [] = Ret (VDict [(VStr "a", VInt 1)])
  /\ Store.get_subscription
       {[ 1%positive := Store.OList [2%positive]; 2%positive := Store.OInt 7;
          3%positive := Store.OList [] ]}
       (Store.mkRequirement 1 3)
     = (Ret 1%positive,
        {[ 1%positive := Store.OList [2%positive]; 2%positive := Store.OInt 7;
           3%positive := Store.OList [] ]}).
Proof.
  split.
  - exact (proj1 get_subscription_empty_subscription (VDict [(VStr "a", VInt 1)])).
  - apply (proj2 get_subscription_empty_subscription). reflexivity.
Defined.

(** ** Selectors that do not fit the container *)

(** C1, as the code has it. When the first selector of a non-empty list
    subscription does not fit the container (an int selector and no list, a
    str selector and no mapping, or a selector that is neither), neither
    inner branch is taken and the call returns [None]; it raises nothing. *)
Theorem get_subscription_mismatch_returns_None (c s0 : value) (rest : list value) :
  kind_matches s0 c = false ->
  resolve c (s0 :: rest) = Ret VNone.
Proof.
  unfold kind_matches, resolve, get_subscription. simpl. intros Hk.
  destruct (isinstance_int s0 && isinstance_list c) eqn:H1; [discriminate |].
  simpl in Hk. rewrite Hk. reflexivity.
Qed.

Lemma get_subscription_mismatch_returns_None_at_a_0 :
  kind_matches (VInt 0) (VDict [(VStr "a", VInt 1)]) = false /\
  resolve (VDict [(VStr "a", VInt 1)]) [VInt 0] = Ret VNone.
Proof.
  split; [reflexivity |].
  apply get_subscription_mismatch_returns_None. reflexivity.
Defined.

(** C1, as the specification has it, fails: [resolve({"a": 1}, [0])] and
    [resolve(["x"], ["k"])] return (the value [None]) and raise nothing. *)
Lemma get_subscription_mismatch_does_not_raise :
  returns (resolve (VDict [(VStr "a", VInt 1)]) [VInt 0]) = true
  /\ returns (resolve (VList [VStr "x"]) [VStr "k"]) = true
  /\ ~ (forall (c s0 : value) (rest : list value),
          kind_matches s0 c = false -> exists e, resolve c (s0 :: rest) = Raise e).
Proof.
  split; [reflexivity |]. split; [reflexivity |].
  intros H.
  destruct (H (VDict [(VStr "a", VInt 1)]) (VInt 0) [] eq_refl) as [e He].
  discriminate He.
Qed.

(** C9, as the code has it. When the subscription is not a list and is
    not falsy (a str other than [""], an int other than [0], ...),
    [get_subscription] is [components[subscription]]: the container indexed
    once by the selector. For a list and a valid index that is the item
    itself, for a dict and one of its keys the value stored under it; no list
    or dict is built around it. *)
Theorem get_subscription_single_selector (c s : value) :
  truthy s = true ->
  isinstance_list s = false ->
  get_subscription (mkRequirement c s) = getitem c s
  /\ (forall xs z, c = VList xs -> s = VInt z -> valid_index (length xs) z ->
        get_subscription (mkRequirement c s) = Ret (item_at xs z))
  /\ (forall kvs k v, c = VDict kvs -> s = VStr k -> dict_find kvs (VStr k) = Some v ->
        get_subscription (mkRequirement c s) = Ret v).
Proof.
  intros Ht Hl.
  assert (Hg : get_subscription (mkRequirement c s) = getitem c s).
  { unfold get_subscription. simpl. rewrite Ht. simpl.
    destruct s; try reflexivity. discriminate Hl. }
  split; [exact Hg |]. split.
  - intros xs z -> -> Hv. rewrite Hg. simpl. apply list_getitem_valid, Hv.
  - intros kvs k v -> -> Hf. rewrite Hg. simpl. unfold dict_getitem. simpl.
    rewrite Hf. reflexivity.
Qed.

Lemma get_subscription_single_selector_train :
  truthy (VStr "train") = true /\ isinstance_list (VStr "train") = false /\
  get_subscription
    (mkRequirement (VDict [(VStr "train", VInt 1); (VStr "val", VInt 2)]) (VStr "train"))
  = Ret (VInt 1).
Proof.
  split; [reflexivity |]. split; [reflexivity |].
  refine (proj2 (proj2 (get_subscription_single_selector
            (VDict [(VStr "train", VInt 1); (VStr "val", VInt 2)]) (VStr "train")
            eq_refl eq_refl)) _ "train" (VInt 1) eq_refl eq_refl eq_refl).
Defined.

(** C9, as the specification has it, fails for the integer selector [0]
    (and likewise for [False] and [""]): the selector is falsy, so the first
    branch returns the whole container, where [components[0]] is its first
    item. *)
Lemma get_subscription_single_selector_zero_is_whole :
  get_subscription (mkRequirement (VList [VStr "a"; VStr "b"]) (VInt 0))
  = Ret (VList [VStr "a"; VStr "b"])
  /\ getitem (VList [VStr "a"; VStr "b"]) (VInt 0) = Ret (VStr "a")
  /\ ~ (forall (c : value) (z : Z),
          get_subscription (mkRequirement c (VInt z)) = getitem c (VInt z)).
Proof.
  split; [reflexivity |]. split; [reflexivity |].
  intros H. specialize (H (VList [VStr "a"; VStr "b"]) 0). discriminate H.
Qed.

(** ** Selecting from a dict *)

Lemma first_occurrences_NoDup seen ss :
  NoDup ss -> (forall s, s ∈ ss -> s ∉ seen) -> first_occurrences seen ss = ss.
Proof.
  intros Hnd. revert seen.
  induction Hnd as [| s ss Hs _ IH]; intros seen Hfresh; [reflexivity |].
  simpl. destruct (decide (s ∈ seen)) as [Hin | _].
  - exfalso. apply (Hfresh s); [left | exact Hin].
  - f_equal. apply IH. intros t Ht Hseen.
    apply elem_of_app in Hseen as [Hseen | Hseen].
    + apply (Hfresh t); [right; exact Ht | exact Hseen].
    + apply list_elem_of_singleton in Hseen as ->. contradiction.
Qed.

Lemma key_eqb_str s t : key_eqb (VStr s) (VStr t) = String.eqb s t.
Proof. reflexivity. Qed.

Lemma dict_setitem_seen kvs seen s v :
  dict_find kvs (VStr s) = Some v -> s ∈ seen ->
  dict_setitem (selected kvs <$> seen) (VStr s) v = selected kvs <$> seen.
Proof.
  intros Hf. induction seen as [| t seen IH]; intros Hin.
  - apply elem_of_nil in Hin as [].
  - rewrite fmap_cons. simpl. destruct (String.eqb_spec t s) as [-> | Hne].
    + unfold selected. rewrite Hf. reflexivity.
    + f_equal. apply IH. apply elem_of_cons in Hin as [-> | Hin]; [congruence | exact Hin].
Qed.

Lemma dict_setitem_new kvs seen s v :
  dict_find kvs (VStr s) = Some v -> s ∉ seen ->
  dict_setitem (selected kvs <$> seen) (VStr s) v = selected kvs <$> (seen ++ [s])%list.
Proof.
  intros Hf. induction seen as [| t seen IH]; intros Hin.
  - simpl. unfold selected. rewrite Hf. reflexivity.
  - rewrite <- app_comm_cons, !fmap_cons. simpl.
    destruct (String.eqb_spec t s) as [-> | Hne].
    + exfalso. apply Hin. left.
    + f_equal. apply IH. intros Hs. apply Hin. right. exact Hs.
Qed.

Lemma dict_comp_present kvs ss seen :
  Forall (present kvs) ss ->
  dict_comp (dict_getitem kvs) (VStr <$> ss) (selected kvs <$> seen)
  = Ret (selected kvs <$> (seen ++ first_occurrences seen ss)%list).
Proof.
  intros Hall. revert seen.
  induction Hall as [| s ss [v Hv] _ IH]; intros seen.
  - simpl. rewrite app_nil_r. reflexivity.
  - rewrite fmap_cons. simpl. unfold dict_getitem at 1. simpl. rewrite Hv.
    destruct (decide (s ∈ seen)) as [Hin | Hin].
    + rewrite (dict_setitem_seen _ _ _ _ Hv Hin). apply IH.
    + rewrite (dict_setitem_new _ _ _ _ Hv Hin), IH.
      rewrite <- app_assoc. reflexivity.
Qed.

Lemma dict_comp_absent kvs ss acc :
  ~ Forall (present kvs) ss ->
  exists s, s ∈ ss /\ dict_find kvs (VStr s) = None /\
    dict_comp (dict_getitem kvs) (VStr <$> ss) acc = Raise (KeyError (VStr s)).
Proof.
  revert acc. induction ss as [| s ss IH]; intros acc Hn.
  - exfalso. apply Hn. constructor.
  - rewrite fmap_cons. simpl. unfold dict_getitem at 1. simpl.
    destruct (dict_find kvs (VStr s)) as [v |] eqn:Hf.
    + destruct (IH (dict_setitem acc (VStr s) v)) as (t & Ht & Hnone & Hr).
      { intros Hall. apply Hn. constructor; [exists v; exact Hf | exact Hall]. }
      exists t. split; [right; exact Ht |]. split; [exact Hnone | exact Hr].
    + exists s. split; [left |]. split; [exact Hf | reflexivity].
Qed.

Lemma resolve_dict_strs kvs s ss :
  resolve (VDict kvs) (VStr <$> s :: ss)
  = VDict <$> dict_comp (dict_getitem kvs) (VStr <$> s :: ss) [].
Proof. reflexivity. Qed.

(** C5. For a dict container [kvs] and a non-empty list [ss] of str
    selectors, [get_subscription] is the comprehension
    [{s: kvs[s] for s in ss}]. When every selector is a key, it returns the
    new dict that maps each selector to its value in [kvs], its keys in the
    order in which the selectors first occur: the order of [ss] itself when
    no selector is repeated. When a selector is no key of [kvs], the
    comprehension, and with it the call, raises [KeyError] for such a
    selector. *)
Theorem get_subscription_dict_of_strs (kvs : list (value * value)) (ss : list string) :
  ss <> [] ->
  (Forall (present kvs) ss ->
     resolve (VDict kvs) (VStr <$> ss)
     = Ret (VDict (selected kvs <$> first_occurrences [] ss))
     /\ (NoDup ss ->
         resolve (VDict kvs) (VStr <$> ss) = Ret (VDict (selected kvs <$> ss))))
  /\ (~ Forall (present kvs) ss ->
     exists s, s ∈ ss /\ dict_find kvs (VStr s) = None /\
       resolve (VDict kvs) (VStr <$> ss) = Raise (KeyError (VStr s))).
Proof.
  intros Hne. destruct ss as [| s ss]; [congruence |].
  rewrite resolve_dict_strs. split.
  - intros Hall.
    pose proof (dict_comp_present kvs (s :: ss) [] Hall) as Hc.
    rewrite fmap_nil, app_nil_l in Hc. rewrite Hc.
    split; [reflexivity |].
    intros Hnd. rewrite (first_occurrences_NoDup [] (s :: ss) Hnd); [reflexivity |].
    intros t _ Ht. apply elem_of_nil in Ht as [].
  - intros Hn.
    destruct (dict_comp_absent kvs (s :: ss) [] Hn) as (t & Ht & Hnone & Hr).
    exists t. rewrite Hr. split; [exact Ht |]. split; [exact Hnone | reflexivity].
Qed.

Lemma get_subscription_dict_of_strs_test_train :
  ["test"; "train"] <> [] /\
  resolve (VDict [(VStr "train", VInt 1); (VStr "val", VInt 2); (VStr "test", VInt 3)])
          [VStr "test"; VStr "train"]
  = Ret (VDict [(VStr "test", VInt 3); (VStr "train", VInt 1)]).
Proof.
  assert (Hne : ["test"; "train"] <> []) by discriminate.
  split; [exact Hne |].
  refine (proj2 (proj1 (get_subscription_dict_of_strs
            [(VStr "train", VInt 1); (VStr "val", VInt 2); (VStr "test", VInt 3)]
            ["test"; "train"] Hne) _) _).
  - repeat constructor; eexists; reflexivity.
  - repeat constructor; intros H; repeat (apply elem_of_cons in H as [H | H]; try discriminate H);
      apply elem_of_nil in H; exact H.
Defined.

(** ** Requirements of a node *)

Lemma has_requirement_true self name :
  has_requirement self name = true <-> is_Some (requirements self !! name).
Proof. unfold has_requirement. apply bool_decide_eq_true. Qed.

Lemma has_requirement_false self name :
  has_requirement self name = false <-> requirements self !! name = None.
Proof.
  unfold has_requirement. rewrite bool_decide_eq_false.
  rewrite <- eq_None_not_Some. reflexivity.
Qed.

(** C7, as the code has it. [get_requirement(name)] raises [KeyError(name)]
    when [name] is not wired; when it is wired, the call is
    [requirements[name].get_subscription()]: it returns what that returns and
    raises what that raises. *)
Theorem get_requirement_lookup (self : ComponentConstructable) (name : string) :
  (has_requirement self name = false ->
     get_requirement self name = Raise (MissingRequirement name))
  /\ (forall r, requirements self !! name = Some r ->
        has_requirement self name = true
        /\ get_requirement self name = get_subscription r).
Proof.
  split.
  - intros H. apply has_requirement_false in H.
    unfold get_requirement. rewrite H. reflexivity.
  - intros r Hr. split.
    + apply has_requirement_true. exists r. exact Hr.
    + unfold get_requirement. rewrite Hr. reflexivity.
Qed.

Lemma get_requirement_lookup_foo :
  has_requirement (mkComponentConstructable "b" VNone ∅) "foo" = false
  /\ get_requirement (mkComponentConstructable "b" VNone ∅) "foo"
     = Raise (KeyError (VStr "foo"))
  /\ get_requirement
       (mkComponentConstructable "b" VNone
          {[ "a" := mkRequirement (VDict [(VStr "x", VInt 1); (VStr "y", VInt 2)])
                                  (VList [VStr "x"]) ]}) "a"
     = Ret (VDict [(VStr "x", VInt 1)]).
Proof.
  split; [reflexivity |]. split.
  - apply (proj1 (get_requirement_lookup (mkComponentConstructable "b" VNone ∅) "foo")).
    reflexivity.
  - exact (proj2 (proj2 (get_requirement_lookup
             (mkComponentConstructable "b" VNone
                {[ "a" := mkRequirement (VDict [(VStr "x", VInt 1); (VStr "y", VInt 2)])
                                        (VList [VStr "x"]) ]}) "a")
             (mkRequirement (VDict [(VStr "x", VInt 1); (VStr "y", VInt 2)])
                            (VList [VStr "x"]))
             eq_refl)).
Defined.

(** C7, as the specification has it, fails in the direction "only if": a
    requirement that is wired, with a selector that is no key of its
    container, makes [get_requirement] raise the very exception it raises for
    a name that is not wired. *)
Lemma get_requirement_KeyError_though_wired :
  ~ (forall (self : ComponentConstructable) (name : string),
       get_requirement self name = Raise (MissingRequirement name)
       <-> has_requirement self name = false).
Proof.
  intros H.
  set (self := mkComponentConstructable "b" VNone
         {[ "foo" := mkRequirement (VDict [(VStr "a", VInt 1)]) (VList [VStr "foo"]) ]}).
  assert (Hr : get_requirement self "foo" = Raise (MissingRequirement "foo"))
    by reflexivity.
  apply H in Hr. discriminate Hr.
Qed.

(** ** get_partial_metric *)

(** C10. [get_partial_metric] with [params] left out, or given as [None],
    is [get_partial_metric] with [params = {}]: it returns the partial
    application of [Metric] with exactly the two keywords [identifier] and
    [metric_fun] bound, and no positional argument. *)
Theorem get_partial_metric_without_params (metric_key metric_fun : value) :
  get_partial_metric metric_key metric_fun None
  = get_partial_metric metric_key metric_fun (Some (VDict []))
  /\ get_partial_metric metric_key metric_fun (Some VNone)
     = get_partial_metric metric_key metric_fun (Some (VDict []))
  /\ get_partial_metric metric_key metric_fun None
     = Ret (mkPartial Metric []
              [("identifier", metric_key); ("metric_fun", metric_fun)]).
Proof. repeat split. Qed.

Example get_partial_metric_with_params :
  get_partial_metric (VStr "F1_SCORE") (VObj 5)
    (Some (VDict [(VStr "average", VStr "macro")]))
  = Ret (mkPartial Metric []
           [("identifier", VStr "F1_SCORE"); ("metric_fun", VObj 5);
            ("average", VStr "macro")]).
Proof. reflexivity. Qed.

Example get_partial_metric_keyword_twice :
  get_partial_metric (VStr "F1_SCORE") (VObj 5)
    (Some (VDict [(VStr "identifier", VStr "other")]))
  = Raise TypeError.
Proof. reflexivity. Qed.

(** ** Lazy construction *)

Section ConstructFacts.
Context {W : Type}.
Variable _construct_impl : ComponentConstructable -> W -> res value * W.

Lemma is_None_false v : v <> VNone -> is_None v = false.
Proof. intros H. destruct v; try reflexivity. contradiction. Qed.

(** A built node answers from [self.constructed]: nothing runs, nothing
    changes. *)
Lemma construct_built (st : run W) :
  constructed (self st) <> VNone ->
  construct _construct_impl st = (Ret (constructed (self st)), st).
Proof.
  intros Hb. unfold construct. rewrite (is_None_false _ Hb). reflexivity.
Qed.

Lemma construct_n_built (n : nat) (st : run W) :
  constructed (self st) <> VNone ->
  construct_n _construct_impl n st = (replicate n (Ret (constructed (self st))), st).
Proof.
  intros Hb. induction n as [| n IH]; [reflexivity |].
  simpl. rewrite (construct_built _ Hb), IH. reflexivity.
Qed.

(** The first call on a node that is not built runs the producer. *)
Lemma construct_unbuilt_returns (st : run W) v w :
  constructed (self st) = VNone ->
  _construct_impl (self st) (world st) = (Ret v, w) ->
  construct _construct_impl st
  = (Ret v, mkRun (set_constructed v (self st)) w (S (calls st))).
Proof.
  intros Hu Hp. unfold construct. rewrite Hu, Hp. reflexivity.
Qed.

Lemma construct_unbuilt_raises (st : run W) e w :
  constructed (self st) = VNone ->
  _construct_impl (self st) (world st) = (Raise e, w) ->
  construct _construct_impl st = (Raise e, mkRun (self st) w (S (calls st))).
Proof.
  intros Hu Hp. unfold construct. rewrite Hu, Hp. reflexivity.
Qed.

(** C2, as the code has it. On a node that is not built and whose
    producer returns a value other than [None], every one of N >= 1 calls of
    [construct] returns that value, the producer is entered once, by the
    first call, and the world is as that one run of the producer left it.
    The value may be empty or falsy ([[]], [{}], [0], [False], [""]): the
    test is [is None]. *)
Theorem construct_memoizes (st : run W) (v : value) (w : W) (n : nat) :
  constructed (self st) = VNone ->
  _construct_impl (self st) (world st) = (Ret v, w) ->
  v <> VNone ->
  construct_n _construct_impl (S n) st
  = (replicate (S n) (Ret v),
     mkRun (set_constructed v (self st)) w (S (calls st))).
Proof.
  intros Hu Hp Hv. simpl.
  rewrite (construct_unbuilt_returns _ _ _ Hu Hp).
  rewrite construct_n_built by exact Hv.
  reflexivity.
Qed.

(** C3. When the producer of a node that is not built raises, [construct]
    raises the same exception, [self.constructed] is still [None] and the
    node is otherwise as before; the next call of [construct] enters the
    producer again, in the world the failed run left, and does with its
    outcome what a first call does. *)
Theorem construct_failure_not_cached (st : run W) (e : exn value) (w : W) :
  constructed (self st) = VNone ->
  _construct_impl (self st) (world st) = (Raise e, w) ->
  construct _construct_impl st = (Raise e, mkRun (self st) w (S (calls st)))
  /\ constructed (self (construct _construct_impl st).2) = VNone
  /\ construct _construct_impl (construct _construct_impl st).2
     = match _construct_impl (self st) w with
       | (Ret v, w') =>
           (Ret v, mkRun (set_constructed v (self st)) w' (S (S (calls st))))
       | (Raise e', w') =>
           (Raise e', mkRun (self st) w' (S (S (calls st))))
       end.
Proof.
  intros Hu Hp.
  rewrite (construct_unbuilt_raises _ _ _ Hu Hp). simpl.
  split; [reflexivity |]. split; [exact Hu |].
  unfold construct. simpl. rewrite Hu. simpl.
  destruct (_construct_impl (self st) w) as [[v | e'] w']; reflexivity.
Qed.
End ConstructFacts.

Lemma construct_memoizes_empty_list :
  construct_n (counting_producer (VList [])) 3 (mkRun fresh_node 0%nat 0%nat)
  = ([Ret (VList []); Ret (VList []); Ret (VList [])],
     mkRun (set_constructed (VList []) fresh_node) 1%nat 1%nat).
Proof.
  apply (construct_memoizes (counting_producer (VList []))
           (mkRun fresh_node 0%nat 0%nat) (VList []) 1%nat 2);
    [reflexivity | reflexivity | discriminate].
Defined.

(** C2, as the specification has it, fails for a producer that returns
    [None]: the node never counts as built, and three calls of [construct]
    run the producer three times. *)
Lemma construct_None_runs_producer_again :
  construct_n (counting_producer VNone) 3 (mkRun fresh_node 0%nat 0%nat)
  = ([Ret VNone; Ret VNone; Ret VNone], mkRun fresh_node 3%nat 3%nat)
  /\ calls (construct_n (counting_producer VNone) 3 (mkRun fresh_node 0%nat 0%nat)).2
     <> 1%nat.
Proof. split; [reflexivity | discriminate]. Qed.

Lemma construct_failure_not_cached_flaky :
  construct flaky_producer (mkRun fresh_node 0%nat 0%nat)
  = (Raise (OtherError "ConstructionError"), mkRun fresh_node 1%nat 1%nat)
  /\ construct flaky_producer (mkRun fresh_node 1%nat 1%nat)
     = (Ret (VStr "artifact"),
        mkRun (set_constructed (VStr "artifact") fresh_node) 2%nat 2%nat).
Proof.
  pose proof (construct_failure_not_cached flaky_producer
                (mkRun fresh_node 0%nat 0%nat)
                (OtherError "ConstructionError") 1%nat eq_refl eq_refl)
    as (H1 & _ & H3).
  split; [exact H1 |].
  rewrite H1 in H3. exact H3.
Defined.

(** ** get_subscription has no effect on the objects it is given *)

Module StoreFacts.
Import Store.

Lemma str_getitem_commit h s k :
  str_getitem h s k = commit h (str_getitem_plan h s k).
Proof.
  unfold str_getitem, str_getitem_plan.
  destruct (as_index (deref h k)); [| reflexivity].
  destruct (norm_index _ _); [| reflexivity].
  destruct (string_nth _ _); reflexivity.
Qed.

Lemma getitem_commit h c k : getitem h c k = commit h (getitem_plan h c k).
Proof.
  unfold getitem, getitem_plan.
  destruct (deref h c); try (destruct (getitem_container _ _ _); reflexivity).
  apply str_getitem_commit.
Qed.

Lemma get_subscription_commit h r :
  get_subscription h r = commit h (get_subscription_plan h r).
Proof.
  unfold get_subscription, get_subscription_plan.
  destruct (negb (truthy (deref h (subscription r)))); [reflexivity |].
  destruct (deref h (subscription r)) as [| | | | sub | |];
    try apply getitem_commit.
  destruct sub as [| s0 sub]; [reflexivity |].
  destruct (isinstance_int _ && isinstance_list _).
  { destruct (list_comp _ _); reflexivity. }
  destruct (isinstance_str _ && isinstance_Mapping _); [| reflexivity].
  destruct (dict_comp _ _ _ _); reflexivity.
Qed.

(** *** Allocation and commit only add to the store *)

Lemma alloc_fresh h o : h !! (alloc h o).1 = None.
Proof. simpl. apply not_elem_of_dom, is_fresh. Qed.

Lemma alloc_subseteq h o : h ⊆ (alloc h o).2.
Proof. simpl. apply insert_subseteq, (alloc_fresh h o). Qed.

Lemma alloc_lookup h o : (alloc h o).2 !! (alloc h o).1 = Some o.
Proof. simpl. apply lookup_insert_eq. Qed.

Lemma commit_subseteq h p : h ⊆ (commit h p).2.
Proof.
  destruct p as [[l | o] | e]; simpl; try reflexivity.
  apply (alloc_subseteq h o).
Qed.

Lemma commit_raise h p e : (commit h p).1 = Raise e -> (commit h p).2 = h.
Proof. destruct p as [[l | o] | e']; simpl; [reflexivity | discriminate | reflexivity]. Qed.

Lemma commit_new_only h p l :
  is_Some ((commit h p).2 !! l) -> is_Some (h !! l) \/ (commit h p).1 = Ret l.
Proof.
  destruct p as [[l' | o] | e]; simpl; try (left; assumption).
  intros Hl. destruct (decide (fresh (dom h) = l)) as [-> | Hne].
  - right. reflexivity.
  - left. rewrite lookup_insert_ne in Hl by exact Hne. exact Hl.
Qed.

(** *** A larger store gives the same plan *)

Lemma deref_Some h l o : h !! l = Some o -> deref h l = o.
Proof. unfold deref. intros ->. reflexivity. Qed.

Lemma deref_held h l : held h l -> h !! l = Some (deref h l).
Proof. intros [o Ho]. rewrite (deref_Some _ _ _ Ho). exact Ho. Qed.

Lemma closed_list h l items :
  closed h -> held h l -> deref h l = OList items -> Forall (held h) items.
Proof.
  intros Hc Hl Hd. apply deref_held in Hl. rewrite Hd in Hl.
  exact (Hc _ _ Hl).
Qed.

Lemma closed_dict_keys h l entries :
  closed h -> held h l -> deref h l = ODict entries -> Forall (held h) (entries.*1).
Proof.
  intros Hc Hl Hd. apply deref_held in Hl. rewrite Hd in Hl.
  pose proof (Hc _ _ Hl) as Hall. simpl in Hall.
  apply Forall_app in Hall as [Hk _]. exact Hk.
Qed.

Section Weaken.
Variables h h1 : store.
Hypothesis Hsub : h ⊆ h1.

Lemma deref_weaken l : held h l -> deref h1 l = deref h l.
Proof.
  intros [o Ho]. rewrite (deref_Some _ _ _ Ho).
  apply deref_Some. exact (lookup_weaken _ _ _ _ Ho Hsub).
Qed.

Lemma key_eqb_weaken a b :
  held h a -> held h b -> key_eqb h1 a b = key_eqb h a b.
Proof.
  intros Ha Hb. unfold key_eqb.
  rewrite (deref_weaken _ Ha), (deref_weaken _ Hb). reflexivity.
Qed.

Lemma list_getitem_weaken items k :
  held h k -> list_getitem h1 items k = list_getitem h items k.
Proof.
  intros Hk. unfold list_getitem. rewrite (deref_weaken _ Hk). reflexivity.
Qed.

Lemma dict_find_weaken entries k :
  Forall (held h) (entries.*1) -> held h k ->
  dict_find h1 entries k = dict_find h entries k.
Proof.
  intros Hall Hk. induction entries as [| [k' v] entries IH]; [reflexivity |].
  rewrite fmap_cons in Hall. apply Forall_cons in Hall as [Hk' Hall].
  simpl in Hk'. simpl. rewrite (key_eqb_weaken _ _ Hk' Hk), (IH Hall). reflexivity.
Qed.

Lemma dict_getitem_weaken entries k :
  Forall (held h) (entries.*1) -> held h k ->
  dict_getitem h1 entries k = dict_getitem h entries k.
Proof.
  intros Hall Hk. unfold dict_getitem.
  rewrite (deref_weaken _ Hk), (dict_find_weaken _ _ Hall Hk). reflexivity.
Qed.

Lemma dict_setitem_weaken entries k v :
  Forall (held h) (entries.*1) -> held h k ->
  dict_setitem h1 entries k v = dict_setitem h entries k v.
Proof.
  intros Hall Hk. induction entries as [| [k' v'] entries IH]; [reflexivity |].
  rewrite fmap_cons in Hall. apply Forall_cons in Hall as [Hk' Hall].
  simpl in Hk'. simpl. rewrite (key_eqb_weaken _ _ Hk' Hk), (IH Hall). reflexivity.
Qed.

Lemma dict_setitem_keys entries k v :
  Forall (held h) (entries.*1) -> held h k ->
  Forall (held h) ((dict_setitem h entries k v).*1).
Proof.
  intros Hall Hk. induction entries as [| [k' v'] entries IH].
  - simpl. repeat constructor. exact Hk.
  - rewrite fmap_cons in Hall. apply Forall_cons in Hall as [Hk' Hall].
    simpl in Hk'. simpl. destruct (key_eqb h k' k); rewrite fmap_cons; simpl.
    + constructor; assumption.
    + constructor; [assumption | exact (IH Hall)].
Qed.

Lemma getitem_container_weaken c k :
  closed h -> held h c -> held h k ->
  getitem_container h1 c k = getitem_container h c k.
Proof.
  intros Hc Hl Hk. unfold getitem_container. rewrite (deref_weaken _ Hl).
  destruct (deref h c) as [| | | | items | entries |] eqn:Hd; try reflexivity.
  - apply list_getitem_weaken, Hk.
  - apply dict_getitem_weaken; [| exact Hk].
    exact (closed_dict_keys _ _ _ Hc Hl Hd).
Qed.

Lemma list_comp_ext (f g : loc -> res loc) xs :
  Forall (fun x => g x = f x) xs -> list_comp g xs = list_comp f xs.
Proof.
  induction 1 as [| x xs Hx _ IH]; [reflexivity |].
  simpl. rewrite Hx, IH. reflexivity.
Qed.

Lemma dict_comp_weaken (f g : loc -> res loc) xs acc :
  Forall (held h) xs -> Forall (held h) (acc.*1) ->
  Forall (fun x => g x = f x) xs ->
  dict_comp h1 g xs acc = dict_comp h f xs acc.
Proof.
  intros Hxs. revert acc.
  induction Hxs as [| x xs Hx _ IH]; intros acc Hacc Hfg; [reflexivity |].
  apply Forall_cons in Hfg as [Hfx Hfg].
  simpl. rewrite (deref_weaken _ Hx), Hfx.
  destruct (hashable (deref h x)); [| reflexivity].
  destruct (f x) as [y | e]; [| reflexivity].
  rewrite (dict_setitem_weaken _ _ _ Hacc Hx).
  apply IH; [| exact Hfg].
  apply dict_setitem_keys; assumption.
Qed.

Lemma getitem_plan_weaken c k :
  closed h -> held h c -> held h k ->
  getitem_plan h1 c k = getitem_plan h c k.
Proof.
  intros Hc Hl Hk. unfold getitem_plan.
  rewrite (deref_weaken _ Hl), (getitem_container_weaken _ _ Hc Hl Hk).
  destruct (deref h c); try reflexivity.
  unfold str_getitem_plan. rewrite (deref_weaken _ Hk). reflexivity.
Qed.

Lemma get_subscription_plan_weaken r :
  closed h -> held h (components r) -> held h (subscription r) ->
  get_subscription_plan h1 r = get_subscription_plan h r.
Proof.
  intros Hc Hcomp Hs. unfold get_subscription_plan.
  rewrite (deref_weaken _ Hs).
  destruct (negb (truthy (deref h (subscription r)))); [reflexivity |].
  destruct (deref h (subscription r)) as [| | | | sub | |] eqn:Hd;
    try (apply getitem_plan_weaken; assumption).
  pose proof (closed_list _ _ _ Hc Hs Hd) as Hall.
  assert (Hget : Forall (fun x => getitem_container h1 (components r) x
                                  = getitem_container h (components r) x) sub).
  { eapply Forall_impl; [exact Hall |].
    intros k Hk. apply getitem_container_weaken; assumption. }
  destruct sub as [| s0 sub]; [reflexivity |].
  pose proof (Forall_inv Hall) as Hs0.
  rewrite (deref_weaken _ Hs0), (deref_weaken _ Hcomp).
  rewrite (list_comp_ext _ _ _ Hget).
  rewrite (dict_comp_weaken _ _ _ [] Hall (Forall_nil_2 _) Hget).
  reflexivity.
Qed.
End Weaken.

(** *** An object handed out is an object of the store *)

Lemma list_getitem_elem h items k x :
  list_getitem h items k = Ret x -> x ∈ items.
Proof.
  unfold list_getitem.
  destruct (as_index (deref h k)); [| discriminate].
  destruct (norm_index _ _) as [j |]; [| discriminate].
  destruct (items !! j) as [y |] eqn:Hj; [| discriminate].
  intros [= <-]. apply list_elem_of_lookup. exists j. exact Hj.
Qed.

Lemma dict_find_elem h entries k v :
  dict_find h entries k = Some v -> v ∈ entries.*2.
Proof.
  induction entries as [| [k' v'] entries IH]; [discriminate |].
  simpl. destruct (key_eqb h k' k).
  - intros [= <-]. left.
  - intros Hf. right. exact (IH Hf).
Qed.

Lemma getitem_container_held h c k x :
  closed h -> held h c -> getitem_container h c k = Ret x -> held h x.
Proof.
  intros Hc Hl. unfold getitem_container.
  destruct (deref h c) as [| | | | items | entries |] eqn:Hd; try discriminate.
  - intros Hx. apply list_getitem_elem in Hx.
    pose proof (closed_list _ _ _ Hc Hl Hd) as Hall.
    rewrite Forall_forall in Hall. exact (Hall _ Hx).
  - unfold dict_getitem. destruct (hashable _); [| discriminate].
    destruct (dict_find h entries k) as [v |] eqn:Hf; [| discriminate].
    intros [= <-]. apply dict_find_elem in Hf.
    apply deref_held in Hl. rewrite Hd in Hl.
    pose proof (Hc _ _ Hl) as Hall. simpl in Hall.
    apply Forall_app in Hall as [_ Hv].
    rewrite Forall_forall in Hv. exact (Hv _ Hf).
Qed.

Lemma get_subscription_plan_existing h r l :
  closed h -> held h (components r) ->
  get_subscription_plan h r = Ret (Existing l) -> held h l.
Proof.
  intros Hc Hcomp. unfold get_subscription_plan.
  destruct (negb (truthy (deref h (subscription r)))).
  { intros [= <-]. exact Hcomp. }
  assert (Hg : getitem_plan h (components r) (subscription r) = Ret (Existing l) ->
               held h l).
  { unfold getitem_plan.
    assert (Hg' : Existing <$> getitem_container h (components r) (subscription r)
                  = Ret (Existing l) -> held h l).
    { destruct (getitem_container h (components r) (subscription r)) as [x |] eqn:Hx;
        [| discriminate].
      intros [= <-]. exact (getitem_container_held _ _ _ _ Hc Hcomp Hx). }
    destruct (deref h (components r)); try exact Hg'.
    unfold str_getitem_plan.
    destruct (as_index _); [| discriminate].
    destruct (norm_index _ _); [| discriminate].
    destruct (string_nth _ _); discriminate. }
  destruct (deref h (subscription r)) as [| | | | sub | |]; try exact Hg.
  destruct sub as [| s0 sub]; [discriminate |].
  destruct (isinstance_int _ && isinstance_list _).
  { destruct (list_comp _ _); discriminate. }
  destruct (isinstance_str _ && isinstance_Mapping _); [| discriminate].
  destruct (dict_comp _ _ _ _); discriminate.
Qed.

(** *** Equal outcomes *)

Lemma commit_same_outcome h hb p :
  h ⊆ hb ->
  (forall l, p = Ret (Existing l) -> held h l) ->
  same_outcome (commit h p).2 (commit hb p).2 (commit h p).1 (commit hb p).1.
Proof.
  intros Hsub Hex. destruct p as [[l | o] | e]; simpl.
  - destruct (Hex l eq_refl) as [x Hx]. split; [exists x; exact Hx |].
    rewrite Hx. symmetry. exact (lookup_weaken _ _ _ _ Hx Hsub).
  - unfold held. rewrite !lookup_insert_eq. split; [exists o |]; reflexivity.
  - reflexivity.
Qed.

End StoreFacts.

(** ** The store model computes what the value model computes *)

Lemma repr_weaken h h' : h ⊆ h' -> forall l v, repr h l v -> repr h' l v.
Proof.
  intros Hsub. fix IH 3. intros l v H.
  destruct H as [l Hl | l b Hl | l z Hl | l s Hl | l items vs Hl Hall
                 | l entries kvs Hl Hall | l Hl];
    pose proof (lookup_weaken _ _ _ _ Hl Hsub) as Hl'.
  - apply repr_None, Hl'.
  - apply repr_Bool, Hl'.
  - apply repr_Int, Hl'.
  - apply repr_Str, Hl'.
  - apply (repr_List _ _ items vs Hl'). clear Hl Hl'.
    induction Hall as [| i v items vs Hi _ IHall]; constructor.
    + apply IH, Hi.
    + exact IHall.
  - apply (repr_Dict _ _ entries kvs Hl'). clear Hl Hl'.
    induction Hall as [| e kv entries kvs [Hk Hv] _ IHall]; constructor.
    + split; apply IH; assumption.
    + exact IHall.
  - apply repr_Other, Hl'.
Qed.

Ltac repr_cases H :=
  let Hl := fresh "Hl" in
  let Hall := fresh "Hall" in
  destruct H as [? Hl | ? ? Hl | ? ? Hl | ? ? Hl | ? ? ? Hl Hall | ? ? ? Hl Hall | ? Hl];
  rewrite ?(StoreFacts.deref_Some _ _ _ Hl).

Lemma repr_truthy h l v :
  repr h l v -> Store.truthy (Store.deref h l) = truthy v.
Proof. intros H. repr_cases H; try reflexivity; destruct Hall; reflexivity. Qed.

Lemma repr_isinstance_int h l v :
  repr h l v -> Store.isinstance_int (Store.deref h l) = isinstance_int v.
Proof. intros H. repr_cases H; reflexivity. Qed.

Lemma repr_isinstance_str h l v :
  repr h l v -> Store.isinstance_str (Store.deref h l) = isinstance_str v.
Proof. intros H. repr_cases H; reflexivity. Qed.

Lemma repr_isinstance_list h l v :
  repr h l v -> Store.isinstance_list (Store.deref h l) = isinstance_list v.
Proof. intros H. repr_cases H; reflexivity. Qed.

Lemma repr_isinstance_Mapping h l v :
  repr h l v -> Store.isinstance_Mapping (Store.deref h l) = isinstance_Mapping v.
Proof. intros H. repr_cases H; reflexivity. Qed.

Lemma repr_as_index h l v :
  repr h l v -> Store.as_index (Store.deref h l) = as_index v.
Proof. intros H. repr_cases H; reflexivity. Qed.

Lemma repr_hashable h l v :
  repr h l v -> Store.hashable (Store.deref h l) = hashable v.
Proof. intros H. repr_cases H; reflexivity. Qed.

Lemma repr_key_eqb h a va b vb :
  repr h a va -> repr h b vb -> Store.key_eqb h a b = key_eqb va vb.
Proof.
  intros Ha Hb. unfold Store.key_eqb.
  repr_cases Ha; repr_cases Hb; reflexivity.
Qed.

Lemma list_getitem_repr h items vs k vk :
  Forall2 (repr h) items vs -> repr h k vk ->
  repr_res (repr h) h (Store.list_getitem h items k) (list_getitem vs vk).
Proof.
  intros Hall Hk. unfold Store.list_getitem, list_getitem.
  rewrite (repr_as_index _ _ _ Hk), (Forall2_length _ _ _ Hall).
  destruct (as_index vk); [| exact I].
  destruct (norm_index _ _) as [j |]; [| exact I].
  destruct (vs !! j) as [y |] eqn:Hj.
  - destruct (Forall2_lookup_r _ _ _ _ _ Hall Hj) as (x & Hx & Hr).
    rewrite Hx. exact Hr.
  - apply lookup_ge_None in Hj. rewrite <- (Forall2_length _ _ _ Hall) in Hj.
    apply lookup_ge_None in Hj. rewrite Hj. exact I.
Qed.

Lemma dict_find_repr h entries kvs k vk :
  Forall2 (repr_entry h) entries kvs -> repr h k vk ->
  repr_option h (Store.dict_find h entries k) (dict_find kvs vk).
Proof.
  intros Hall Hk.
  induction Hall as [| [k' v'] [vk' vv'] entries kvs [Hk' Hv'] _ IH]; [exact I |].
  simpl in *. rewrite (repr_key_eqb _ _ _ _ _ Hk' Hk).
  destruct (key_eqb vk' vk); [exact Hv' | exact IH].
Qed.

Lemma dict_getitem_repr h entries kvs k vk :
  Forall2 (repr_entry h) entries kvs -> repr h k vk ->
  repr_res (repr h) h (Store.dict_getitem h entries k) (dict_getitem kvs vk).
Proof.
  intros Hall Hk. unfold Store.dict_getitem, dict_getitem.
  rewrite (repr_hashable _ _ _ Hk).
  destruct (hashable vk); [| exact I].
  pose proof (dict_find_repr _ _ _ _ _ Hall Hk) as Hf.
  destruct (Store.dict_find h entries k), (dict_find kvs vk); try contradiction.
  - exact Hf.
  - exact Hk.
Qed.

Lemma dict_setitem_repr h entries kvs k vk v vv :
  Forall2 (repr_entry h) entries kvs -> repr h k vk -> repr h v vv ->
  Forall2 (repr_entry h) (Store.dict_setitem h entries k v) (dict_setitem kvs vk vv).
Proof.
  intros Hall Hk Hv.
  induction Hall as [| [k' v'] [vk' vv'] entries kvs [Hk' Hv'] Hall IH].
  - repeat constructor; assumption.
  - simpl in *. rewrite (repr_key_eqb _ _ _ _ _ Hk' Hk).
    destruct (key_eqb vk' vk); constructor; try assumption; split; assumption.
Qed.

Lemma getitem_container_repr h c vc k vk :
  repr h c vc -> isinstance_str vc = false -> repr h k vk ->
  repr_res (repr h) h (Store.getitem_container h c k) (getitem vc vk).
Proof.
  intros Hc Hns Hk. unfold Store.getitem_container.
  repr_cases Hc; try exact I; try discriminate Hns.
  - apply list_getitem_repr; assumption.
  - apply dict_getitem_repr; assumption.
Qed.

Lemma list_comp_repr h f f' xs vxs :
  Forall2 (repr h) xs vxs ->
  (forall x vx, repr h x vx -> repr_res (repr h) h (f x) (f' vx)) ->
  repr_res (Forall2 (repr h)) h (Store.list_comp f xs) (list_comp f' vxs).
Proof.
  intros Hall Hf. induction Hall as [| x vx xs vxs Hx _ IH]; [constructor |].
  simpl. pose proof (Hf _ _ Hx) as Hfx.
  destruct (f x) as [y | e], (f' vx) as [vy | e']; try contradiction; [| exact Hfx].
  destruct (Store.list_comp f xs) as [ys | e], (list_comp f' vxs) as [vys | e'];
    try contradiction; [| exact IH].
  constructor; assumption.
Qed.

Lemma dict_comp_repr h f f' xs vxs acc vacc :
  Forall2 (repr h) xs vxs ->
  Forall2 (repr_entry h) acc vacc ->
  (forall x vx, repr h x vx -> repr_res (repr h) h (f x) (f' vx)) ->
  repr_res (Forall2 (repr_entry h)) h
    (Store.dict_comp h f xs acc) (dict_comp f' vxs vacc).
Proof.
  intros Hall. revert acc vacc.
  induction Hall as [| x vx xs vxs Hx _ IH]; intros acc vacc Hacc Hf; [exact Hacc |].
  simpl. rewrite (repr_hashable _ _ _ Hx). pose proof (Hf _ _ Hx) as Hfx.
  destruct (hashable vx);
    destruct (f x) as [y | e], (f' vx) as [vy | e']; try contradiction;
    try exact Hfx; try exact I.
  apply IH; [| exact Hf]. apply dict_setitem_repr; assumption.
Qed.

Lemma repr_exn_weaken h h' e e' : h ⊆ h' -> repr_exn h e e' -> repr_exn h' e e'.
Proof.
  intros Hsub. destruct e, e'; simpl; try tauto.
  apply repr_weaken, Hsub.
Qed.

Lemma refines_commit_existing h (o : Store.res Store.loc) o' :
  repr_res (repr h) h o o' ->
  refines (Store.commit h (Store.Existing <$> o)) o'.
Proof. destruct o, o'; simpl; tauto. Qed.

Lemma alloc_repr_weaken h o l v :
  repr h l v -> repr (Store.alloc h o).2 l v.
Proof. apply repr_weaken, StoreFacts.alloc_subseteq. Qed.

Lemma refines_commit_list h (o : Store.res (list Store.loc)) (o' : res (list value)) :
  repr_res (Forall2 (repr h)) h o o' ->
  refines (Store.commit h ((fun items => Store.New (Store.OList items)) <$> o))
          (VList <$> o').
Proof.
  destruct o as [items | e], o' as [vs | e']; simpl; try tauto.
  intros Hall. unfold refines. simpl.
  apply (repr_List _ _ items vs); [apply lookup_insert_eq |].
  eapply Forall2_impl; [exact Hall |].
  intros l v. apply (alloc_repr_weaken h (Store.OList items)).
Qed.

Lemma refines_commit_dict h (o : Store.res (list (Store.loc * Store.loc)))
    (o' : res (list (value * value))) :
  repr_res (Forall2 (repr_entry h)) h o o' ->
  refines (Store.commit h ((fun entries => Store.New (Store.ODict entries)) <$> o))
          (VDict <$> o').
Proof.
  destruct o as [entries | e], o' as [kvs | e']; simpl; try tauto.
  intros Hall. unfold refines. simpl.
  apply (repr_Dict _ _ entries kvs); [apply lookup_insert_eq |].
  eapply Forall2_impl; [exact Hall |].
  intros e kv [Hk Hv].
  split; apply (alloc_repr_weaken h (Store.ODict entries)); assumption.
Qed.

Lemma str_getitem_plan_refines h s k vk :
  repr h k vk ->
  refines (Store.commit h (Store.str_getitem_plan h s k)) (str_getitem s vk).
Proof.
  intros Hk. unfold Store.str_getitem_plan, str_getitem.
  rewrite (repr_as_index _ _ _ Hk).
  destruct (as_index vk); [| exact I].
  destruct (norm_index _ _); [| exact I].
  destruct (string_nth _ _); [| exact I].
  unfold refines. simpl. apply repr_Str, lookup_insert_eq.
Qed.

Lemma getitem_plan_refines h c vc k vk :
  repr h c vc -> repr h k vk ->
  refines (Store.commit h (Store.getitem_plan h c k)) (getitem vc vk).
Proof.
  intros Hc Hk. unfold Store.getitem_plan.
  destruct (isinstance_str vc) eqn:Hs.
  - destruct vc; try discriminate Hs.
    inversion Hc as [| | | ? ? Hl | | |]; subst.
    rewrite (StoreFacts.deref_Some _ _ _ Hl).
    apply str_getitem_plan_refines, Hk.
  - pose proof (getitem_container_repr _ _ _ _ _ Hc Hs Hk) as Hg.
    apply refines_commit_existing in Hg.
    pose proof (repr_isinstance_str _ _ _ Hc) as Hs'. rewrite Hs in Hs'.
    destruct (Store.deref h c); try exact Hg. discriminate Hs'.
Qed.

Lemma get_subscription_refines h r vc vs :
  repr h (Store.components r) vc ->
  repr h (Store.subscription r) vs ->
  refines (Store.get_subscription h r) (get_subscription (mkRequirement vc vs)).
Proof.
  intros Hc Hs. rewrite StoreFacts.get_subscription_commit.
  unfold Store.get_subscription_plan, get_subscription. simpl.
  rewrite (repr_truthy _ _ _ Hs).
  destruct (negb (truthy vs)); [exact Hc |].
  pose proof (getitem_plan_refines _ _ _ _ _ Hc Hs) as Hg.
  inversion Hs as [? Hl | ? ? Hl | ? ? Hl | ? ? Hl | ? sub vsub Hl Hall
                   | ? ? ? Hl Hall | ? Hl]; subst;
    rewrite (StoreFacts.deref_Some _ _ _ Hl); try exact Hg.
  clear Hg.
  destruct Hall as [| s0 vs0 sub vsub Hs0 Hall]; [exact I |].
  rewrite (repr_isinstance_int _ _ _ Hs0), (repr_isinstance_str _ _ _ Hs0),
    (repr_isinstance_list _ _ _ Hc), (repr_isinstance_Mapping _ _ _ Hc).
  destruct (isinstance_int vs0 && isinstance_list vc) eqn:Hil.
  { apply refines_commit_list, list_comp_repr; [constructor; assumption |].
    intros x vx Hx. apply getitem_container_repr; [exact Hc | | exact Hx].
    apply andb_prop in Hil as [_ Hil]. destruct vc; try discriminate Hil. reflexivity. }
  destruct (isinstance_str vs0 && isinstance_Mapping vc) eqn:Hsm.
  { apply refines_commit_dict, dict_comp_repr; [constructor; assumption | constructor |].
    intros x vx Hx. apply getitem_container_repr; [exact Hc | | exact Hx].
    apply andb_prop in Hsm as [_ Hsm]. destruct vc; try discriminate Hsm. reflexivity. }
  unfold refines. simpl. apply repr_None, lookup_insert_eq.
Qed.

(** C8. [get_subscription] is a pure function of the container and the
    subscription. (1) It has no effect on any object: every object of the
    store is in the store it leaves, unchanged, the container and the
    subscription among them. (2) It adds at most one object, the one it
    returns, and none when it raises. (3) Its outcome is a function of the
    objects it is given: run in any larger store, for instance once more in
    the store it left, it raises the same exception or returns an object with
    the same content. (4) Its outcome is a function of the values of the
    container and the subscription: the one [get_subscription] of the value
    model computes from them. *)
Theorem get_subscription_pure (h : Store.store) (r : Store.Requirement) :
  Store.closed h ->
  Store.held h (Store.components r) ->
  Store.held h (Store.subscription r) ->
  h ⊆ (Store.get_subscription h r).2
  /\ (Store.get_subscription h r).2 !! Store.components r = h !! Store.components r
  /\ (Store.get_subscription h r).2 !! Store.subscription r = h !! Store.subscription r
  /\ (forall l, Store.held (Store.get_subscription h r).2 l ->
        Store.held h l \/ (Store.get_subscription h r).1 = Ret l)
  /\ (forall e, (Store.get_subscription h r).1 = Raise e ->
        (Store.get_subscription h r).2 = h)
  /\ (forall hb, h ⊆ hb ->
        Store.same_outcome
          (Store.get_subscription h r).2 (Store.get_subscription hb r).2
          (Store.get_subscription h r).1 (Store.get_subscription hb r).1)
  /\ (forall vc vs,
        repr h (Store.components r) vc -> repr h (Store.subscription r) vs ->
        refines (Store.get_subscription h r)
                (get_subscription (mkRequirement vc vs))).
Proof.
  intros Hc Hcomp Hs.
  assert (Hframe : h ⊆ (Store.get_subscription h r).2).
  { rewrite StoreFacts.get_subscription_commit. apply StoreFacts.commit_subseteq. }
  split; [exact Hframe |].
  split.
  { destruct Hcomp as [o Ho]. rewrite Ho. exact (lookup_weaken _ _ _ _ Ho Hframe). }
  split.
  { destruct Hs as [o Ho]. rewrite Ho. exact (lookup_weaken _ _ _ _ Ho Hframe). }
  split.
  { intros l. rewrite StoreFacts.get_subscription_commit.
    apply StoreFacts.commit_new_only. }
  split.
  { intros e. rewrite StoreFacts.get_subscription_commit.
    apply StoreFacts.commit_raise. }
  split.
  { intros hb Hsub.
    rewrite (StoreFacts.get_subscription_commit hb).
    rewrite (StoreFacts.get_subscription_plan_weaken h hb Hsub r Hc Hcomp Hs).
    rewrite StoreFacts.get_subscription_commit.
    apply StoreFacts.commit_same_outcome; [exact Hsub |].
    intros l Hl. exact (StoreFacts.get_subscription_plan_existing _ _ _ Hc Hcomp Hl). }
  intros vc vs. apply get_subscription_refines.
Qed.

Example get_subscription_abc_store :
  let out := Store.get_subscription abc_store (Store.mkRequirement 1 2) in
  exists l, out.1 = Ret l
    /\ abc_store !! l = None
    /\ out.2 !! l = Some (Store.OList [6; 4]%positive).
Proof. exists 9%positive. vm_compute. repeat split. Qed.

Lemma get_subscription_pure_abc :
  Store.closed abc_store
  /\ abc_store ⊆ (Store.get_subscription abc_store (Store.mkRequirement 1 2)).2
  /\ (Store.get_subscription abc_store (Store.mkRequirement 1 2)).2 !! 1%positive
     = Some (Store.OList [4; 5; 6]%positive)
  /\ (Store.get_subscription abc_store (Store.mkRequirement 1 2)).2 !! 2%positive
     = Some (Store.OList [7; 8]%positive).
Proof.
  assert (Hc : Store.closed abc_store).
  { apply (bool_decide_unpack _). vm_compute. exact I. }
  assert (H1 : Store.held abc_store 1).
  { exists (Store.OList [4; 5; 6]%positive). reflexivity. }
  assert (H2 : Store.held abc_store 2).
  { exists (Store.OList [7; 8]%positive). reflexivity. }
  destruct (get_subscription_pure abc_store (Store.mkRequirement 1 2) Hc H1 H2)
    as (Hframe & Hcomp & Hsub & _).
  split; [exact Hc |]. split; [exact Hframe |].
  split.
  - exact (eq_trans Hcomp eq_refl).
  - exact (eq_trans Hsub eq_refl).
Defined.

(** The values of the objects of [abc_store], and of the list the call
    makes: [resolve(["a", "b", "c"], [2, 0])] gives [["c", "a"]] in both
    models. *)
Example get_subscription_abc_store_value :
  repr abc_store 1 (VList [VStr "a"; VStr "b"; VStr "c"])
  /\ repr abc_store 2 (VList [VInt 2; VInt 0])
  /\ repr (Store.get_subscription abc_store (Store.mkRequirement 1 2)).2 9
          (VList [VStr "c"; VStr "a"]).
Proof.
  assert (Ha : repr abc_store 1 (VList [VStr "a"; VStr "b"; VStr "c"])).
  { eapply repr_List; [reflexivity |].
    repeat constructor; apply repr_Str; reflexivity. }
  assert (Hb : repr abc_store 2 (VList [VInt 2; VInt 0])).
  { eapply repr_List; [reflexivity |].
    repeat constructor; apply repr_Int; reflexivity. }
  split; [exact Ha |]. split; [exact Hb |].
  exact (get_subscription_refines abc_store (Store.mkRequirement 1 2) _ _ Ha Hb).
Qed.

(** * Further properties *)

(** ** Selections of selections *)





Lemma resolve_list_valid xs zs :
  zs <> [] -> Forall (valid_index (length xs)) zs ->
  resolve (VList xs) (VInt <$> zs) = Ret (VList (item_at xs <$> zs)).
Proof.
  intros Hne Hv. destruct zs as [| z zs]; [congruence |].
  rewrite resolve_list_ints, (list_comp_valid _ _ Hv). reflexivity.
Qed.

Lemma bind_Ret {A B} (a : A) (f : A -> res B) : Ret a ≫= f = f a.
Proof. reflexivity. Qed.



(** ** sample_selection_fun *)

Lemma item_at_of_nat xs (i : nat) x :
  xs !! i = Some x -> item_at xs (Z.of_nat i) = x.
Proof.
  intros Hx. pose proof (lookup_lt_Some _ _ _ Hx) as Hlt.
  unfold item_at. rewrite Z.mod_small by lia.
  rewrite Nat2Z.id, nth_lookup, Hx. reflexivity.
Qed.

Lemma item_at_seq xs :
  item_at xs <$> (Z.of_nat <$> seq 0 (length xs)) = xs.
Proof.
  apply list_eq. intros i. rewrite !list_lookup_fmap.
  destruct (xs !! i) as [x |] eqn:Hx.
  - rewrite lookup_seq_lt by (eapply lookup_lt_Some; exact Hx).
    simpl. rewrite (item_at_of_nat _ _ _ Hx). reflexivity.
  - apply lookup_ge_None in Hx. rewrite lookup_seq_ge by lia. reflexivity.
Qed.

(** X2. [sample_selection_fun(iterator, n)] is the list [0, ..., n-1]
    whatever the iterator, the empty list when [n <= 0]; as a subscription of
    a list of [n] items it selects the whole list. *)
Theorem sample_selection_fun_selects_all (iterator : value) (n : Z) (xs : list value) :
  IteratorViewConstructable.sample_selection_fun iterator (VInt n)
  = Ret (VList (VInt <$> (Z.of_nat <$> seq 0 (Z.to_nat n))))
  /\ (n <= 0 ->
      IteratorViewConstructable.sample_selection_fun iterator (VInt n) = Ret (VList []))
  /\ (n = Z.of_nat (length xs) ->
      IteratorViewConstructable.sample_selection_fun iterator (VInt n)
        ≫= (fun selection => get_subscription (mkRequirement (VList xs) selection))
      = Ret (VList xs)).
Proof.
  split; [reflexivity |]. split.
  - intros Hn. unfold IteratorViewConstructable.sample_selection_fun, py_range. simpl.
    replace (Z.to_nat n) with 0%nat by lia. reflexivity.
  - intros ->. unfold IteratorViewConstructable.sample_selection_fun, py_range. simpl.
    rewrite Nat2Z.id.
    destruct xs as [| x xs]; [reflexivity |].
    change (get_subscription _)
      with (resolve (VList (x :: xs)) (VInt <$> (Z.of_nat <$> seq 0 (length (x :: xs))))).
    rewrite resolve_list_valid.
    + rewrite item_at_seq. reflexivity.
    + discriminate.
    + apply Forall_fmap, Forall_forall. intros i Hi.
      apply elem_of_seq in Hi. unfold compose, valid_index. lia.
Qed.

Lemma sample_selection_fun_selects_all_ab :
  IteratorViewConstructable.sample_selection_fun (VObj 1) (VInt 2)
    ≫= (fun selection =>
          get_subscription (mkRequirement (VList [VStr "a"; VStr "b"]) selection))
  = Ret (VList [VStr "a"; VStr "b"]).
Proof.
  exact (proj2 (proj2 (sample_selection_fun_selects_all
                         (VObj 1) 2 [VStr "a"; VStr "b"])) eq_refl).
Defined.

(** ** Selectors of several kinds, and the exceptions of a narrowing *)

Lemma list_comp_app_TypeError xs zs k rest :
  Forall (valid_index (length xs)) zs -> as_index k = None ->
  list_comp (list_getitem xs) ((VInt <$> zs) ++ k :: rest)%list = Raise TypeError.
Proof.
  intros Hv Hk. induction Hv as [| z zs Hz _ IH].
  - simpl. unfold list_getitem at 1. rewrite Hk. reflexivity.
  - rewrite fmap_cons. simpl. rewrite (list_getitem_valid _ _ Hz), IH. reflexivity.
Qed.

(** X3. Only the first selector decides the branch. With a list container
    and a first selector that is an int, a later selector that is no int (a
    str, say) is not skipped and does not turn the result into [None]: when
    the selectors before it are valid indices, the call raises [TypeError]. *)
Theorem get_subscription_later_selector_of_other_kind
    (xs : list value) (zs : list Z) (k : value) (rest : list value) :
  zs <> [] ->
  Forall (valid_index (length xs)) zs ->
  as_index k = None ->
  resolve (VList xs) ((VInt <$> zs) ++ k :: rest)%list = Raise TypeError.
Proof.
  intros Hne Hv Hk. destruct zs as [| z zs]; [congruence |].
  rewrite fmap_cons, <- app_comm_cons.
  change (resolve (VList xs) (VInt z :: ((VInt <$> zs) ++ k :: rest)%list))
    with (VList <$> list_comp (list_getitem xs) ((VInt <$> z :: zs) ++ k :: rest)%list).
  rewrite (list_comp_app_TypeError _ _ _ _ Hv Hk). reflexivity.
Qed.

Lemma get_subscription_later_selector_of_other_kind_ab :
  resolve (VList [VStr "a"; VStr "b"]) [VInt 1; VStr "a"; VInt 0] = Raise TypeError.
Proof.
  apply (get_subscription_later_selector_of_other_kind
           [VStr "a"; VStr "b"] [1] (VStr "a") [VInt 0]);
    [discriminate | repeat constructor; unfold valid_index; simpl; lia | reflexivity].
Defined.

Lemma list_getitem_raise xs k e :
  list_getitem xs k = Raise e -> e = TypeError \/ e = IndexError.
Proof.
  unfold list_getitem.
  destruct (as_index k); [| intros [= <-]; left; reflexivity].
  destruct (norm_index _ _) as [j |]; [| intros [= <-]; right; reflexivity].
  destruct (xs !! j); [discriminate | intros [= <-]; right; reflexivity].
Qed.

Lemma str_getitem_raise s k e :
  str_getitem s k = Raise e -> e = TypeError \/ e = IndexError.
Proof.
  unfold str_getitem.
  destruct (as_index k); [| intros [= <-]; left; reflexivity].
  destruct (norm_index _ _) as [j |]; [| intros [= <-]; right; reflexivity].
  destruct (string_nth s j); [discriminate | intros [= <-]; right; reflexivity].
Qed.

Lemma dict_getitem_raise kvs k e :
  dict_getitem kvs k = Raise e ->
  e = TypeError \/ (e = KeyError k /\ dict_find kvs k = None).
Proof.
  unfold dict_getitem.
  destruct (hashable k); [| intros [= <-]; left; reflexivity].
  destruct (dict_find kvs k) eqn:Hf; [discriminate |].
  intros [= <-]. right. split; reflexivity.
Qed.

Lemma list_comp_raise (P : exn value -> Prop) f l e :
  (forall x e', f x = Raise e' -> P e') -> list_comp f l = Raise e -> P e.
Proof.
  intros Hf. induction l as [| x l IH]; [discriminate |].
  simpl. destruct (f x) as [y | e'] eqn:Hx.
  - destruct (list_comp f l); [discriminate |]. intros [= <-]. apply IH. reflexivity.
  - intros [= <-]. exact (Hf _ _ Hx).
Qed.

Lemma dict_comp_raise (P : exn value -> Prop) f l acc e :
  (forall x e', f x = Raise e' -> P e') -> P TypeError ->
  dict_comp f l acc = Raise e -> P e.
Proof.
  intros Hf HT. revert acc. induction l as [| x l IH]; intros acc; [discriminate |].
  simpl. destruct (hashable x); destruct (f x) as [y | e'] eqn:Hx.
  - apply IH.
  - intros [= <-]. exact (Hf _ _ Hx).
  - intros [= <-]. exact HT.
  - intros [= <-]. exact (Hf _ _ Hx).
Qed.

(** X4. The exceptions of [get_subscription], by container. With a list
    (or a str) it raises nothing but [TypeError] and [IndexError], never a
    [KeyError]; with a dict nothing but [TypeError] and the [KeyError] of a
    selector that is no key, never an [IndexError]; with [None], a bool or an
    int nothing but [TypeError]. Nothing is said of a container of any other
    type. *)
Theorem get_subscription_exceptions (c s : value) (e : exn value) :
  get_subscription (mkRequirement c s) = Raise e ->
  match c with
  | VList _ | VStr _ => e = TypeError \/ e = IndexError
  | VDict kvs => e = TypeError \/ exists k, e = KeyError k /\ dict_find kvs k = None
  | VNone | VBool _ | VInt _ => e = TypeError
  | VObj _ => True
  end.
Proof.
  unfold get_subscription. simpl.
  destruct (negb (truthy s)) eqn:Ht; [discriminate |].
  assert (Hg : getitem c s = Raise e ->
               match c with
               | VList _ | VStr _ => e = TypeError \/ e = IndexError
               | VDict kvs =>
                   e = TypeError \/ exists k, e = KeyError k /\ dict_find kvs k = None
               | VNone | VBool _ | VInt _ => e = TypeError
               | VObj _ => True
               end).
  { destruct c as [| | | str | xs | kvs |]; simpl;
      try (intros [= <-]; reflexivity); try (intros _; exact I).
    - apply str_getitem_raise.
    - apply list_getitem_raise.
    - intros H. apply dict_getitem_raise in H as [-> | [-> Hf]]; [left; reflexivity |].
      right. exists s. split; [reflexivity | exact Hf]. }
  destruct s as [| | | | sub | |]; try exact Hg. clear Hg.
  destruct sub as [| s0 sub]; [discriminate Ht |].
  destruct (isinstance_int s0 && isinstance_list c) eqn:H1.
  { apply andb_prop in H1 as [_ H1]. destruct c as [| | | | xs | |]; try discriminate H1.
    destruct (list_comp _ _) as [ys | e'] eqn:Hc; [discriminate |].
    intros [= <-].
    refine (list_comp_raise (fun e0 => e0 = TypeError \/ e0 = IndexError) _ _ _ _ Hc).
    intros x e0. apply list_getitem_raise. }
  destruct (isinstance_str s0 && isinstance_Mapping c) eqn:H2; [| discriminate].
  apply andb_prop in H2 as [_ H2]. destruct c as [| | | | | kvs |]; try discriminate H2.
  destruct (dict_comp _ _ _) as [ys | e'] eqn:Hc; [discriminate |].
  intros [= <-].
  refine (dict_comp_raise
            (fun e0 => e0 = TypeError \/ exists k, e0 = KeyError k /\ dict_find kvs k = None)
            _ _ _ _ _ _ Hc); [| left; reflexivity].
  intros x e0 H. apply dict_getitem_raise in H as [-> | [-> Hf]]; [left; reflexivity |].
  right. exists x. split; [reflexivity | exact Hf].
Qed.

Lemma get_subscription_exceptions_val :
  exists k, KeyError (VStr "val") = KeyError k
    /\ dict_find [(VStr "train", VInt 1)] k = None.
Proof.
  destruct (get_subscription_exceptions
              (VDict [(VStr "train", VInt 1)]) (VList [VStr "train"; VStr "val"])
              (KeyError (VStr "val")) eq_refl) as [H | H].
  - discriminate H.
  - exact H.
Defined.

(** ** What a narrowed dict holds *)

Lemma elem_of_first_occurrences seen ss s :
  s ∈ first_occurrences seen ss <-> s ∈ ss /\ s ∉ seen.
Proof.
  revert seen. induction ss as [| t ss IH]; intros seen; simpl.
  - split; [intros H; apply elem_of_nil in H as [] | intros [H _]; exact H].
  - destruct (decide (t ∈ seen)) as [Hin | Hin].
    + rewrite IH, elem_of_cons. split.
      * intros [H1 H2]. split; [right; exact H1 | exact H2].
      * intros [[-> | H1] H2]; [contradiction | split; assumption].
    + rewrite !elem_of_cons, IH, elem_of_app, list_elem_of_singleton. split.
      * intros [-> | [H1 H2]]; [split; [left; reflexivity | exact Hin] |].
        split; [right; exact H1 | intros H; apply H2; left; exact H].
      * intros [[-> | H1] H2]; [left; reflexivity |].
        destruct (decide (s = t)) as [-> | Hne]; [left; reflexivity |].
        right. split; [exact H1 |]. intros [H | H]; [contradiction | congruence].
Qed.

Lemma dict_find_selected kvs l s :
  dict_find (selected kvs <$> l) (VStr s)
  = if decide (s ∈ l) then Some (default VNone (dict_find kvs (VStr s))) else None.
Proof.
  induction l as [| t l IH].
  - simpl. destruct (decide (s ∈ [])) as [H | _]; [apply elem_of_nil in H as [] | reflexivity].
  - rewrite fmap_cons. simpl. destruct (String.eqb_spec t s) as [-> | Hne].
    + destruct (decide (s ∈ s :: l)) as [_ | H]; [reflexivity |].
      exfalso. apply H. left.
    + rewrite IH. destruct (decide (s ∈ l)) as [Hin | Hin].
      * destruct (decide (s ∈ t :: l)) as [_ | H]; [reflexivity |].
        exfalso. apply H. right. exact Hin.
      * destruct (decide (s ∈ t :: l)) as [H | _]; [| reflexivity].
        apply elem_of_cons in H as [-> | H]; [congruence | contradiction].
Qed.

Lemma resolve_dict_Ret kvs ss out :
  ss <> [] ->
  resolve (VDict kvs) (VStr <$> ss) = Ret out ->
  Forall (present kvs) ss
  /\ out = VDict (selected kvs <$> first_occurrences [] ss).
Proof.
  intros Hne Hr. destruct ss as [| s ss]; [congruence |].
  rewrite resolve_dict_strs in Hr.
  destruct (decide (Forall (present kvs) (s :: ss))) as [Hall | Hn].
  - split; [exact Hall |].
    pose proof (dict_comp_present kvs (s :: ss) [] Hall) as Hc.
    rewrite fmap_nil, app_nil_l in Hc. rewrite Hc in Hr.
    injection Hr as <-. reflexivity.
  - destruct (dict_comp_absent kvs (s :: ss) [] Hn) as (t & _ & _ & Hc).
    rewrite Hc in Hr. discriminate Hr.
Qed.

Lemma dict_find_narrowed kvs ss s :
  Forall (present kvs) ss ->
  dict_find (selected kvs <$> first_occurrences [] ss) (VStr s)
  = if decide (s ∈ ss) then dict_find kvs (VStr s) else None.
Proof.
  intros Hall. rewrite dict_find_selected.
  destruct (decide (s ∈ first_occurrences [] ss)) as [Hin | Hin];
    rewrite elem_of_first_occurrences in Hin.
  - destruct Hin as [Hin _]. destruct (decide (s ∈ ss)); [| contradiction].
    rewrite Forall_forall in Hall. destruct (Hall _ Hin) as [v Hv].
    rewrite Hv. reflexivity.
  - destruct (decide (s ∈ ss)) as [Hs | _]; [| reflexivity].
    exfalso. apply Hin. split; [exact Hs |]. intros H. apply elem_of_nil in H as [].
Qed.

(** X5. A narrowed dict agrees with the container on every selector, and
    holds nothing else: looking up a str in the dict that
    [get_subscription] returns gives what the container has under it when it
    is one of the selectors, and nothing when it is not. *)
Theorem get_subscription_dict_lookup
    (kvs out : list (value * value)) (ss : list string) (s : string) :
  ss <> [] ->
  resolve (VDict kvs) (VStr <$> ss) = Ret (VDict out) ->
  dict_find out (VStr s)
  = if decide (s ∈ ss) then dict_find kvs (VStr s) else None.
Proof.
  intros Hne Hr.
  destruct (resolve_dict_Ret _ _ _ Hne Hr) as [Hall [= ->]].
  apply dict_find_narrowed, Hall.
Qed.

Lemma get_subscription_dict_lookup_test :
  dict_find [(VStr "test", VInt 3); (VStr "train", VInt 1)] (VStr "val") = None.
Proof.
  exact (get_subscription_dict_lookup
           [(VStr "train", VInt 1); (VStr "val", VInt 2); (VStr "test", VInt 3)]
           [(VStr "test", VInt 3); (VStr "train", VInt 1)]
           ["test"; "train"] "val" ltac:(discriminate) eq_refl).
Defined.

(** X6. Narrowing a dict by the same selectors once more changes nothing:
    the dict that [get_subscription] returns, narrowed by the same
    subscription, is returned as it is. *)
Theorem get_subscription_dict_twice (kvs : list (value * value)) (ss : list string) :
  ss <> [] ->
  Forall (present kvs) ss ->
  resolve (VDict kvs) (VStr <$> ss) ≫= (fun narrowed => resolve narrowed (VStr <$> ss))
  = resolve (VDict kvs) (VStr <$> ss).
Proof.
  intros Hne Hall. destruct ss as [| s0 ss]; [congruence |].
  set (sel := s0 :: ss) in *.
  assert (Hr : resolve (VDict kvs) (VStr <$> sel)
               = Ret (VDict (selected kvs <$> first_occurrences [] sel))).
  { unfold sel. rewrite resolve_dict_strs.
    pose proof (dict_comp_present kvs (s0 :: ss) [] Hall) as Hc.
    rewrite fmap_nil, app_nil_l in Hc. fold sel in Hc. fold sel. rewrite Hc. reflexivity. }
  rewrite Hr, bind_Ret.
  set (out := selected kvs <$> first_occurrences [] sel).
  assert (Hfind : forall s, s ∈ sel ->
            dict_find out (VStr s) = dict_find kvs (VStr s)).
  { intros s Hs. unfold out. rewrite (dict_find_narrowed kvs sel s Hall).
    destruct (decide (s ∈ sel)); [reflexivity | contradiction]. }
  assert (Hpres : Forall (present out) sel).
  { apply Forall_forall. intros s Hs. unfold present. rewrite (Hfind s Hs).
    rewrite Forall_forall in Hall. exact (Hall s Hs). }
  unfold sel at 1. rewrite resolve_dict_strs. fold sel.
  pose proof (dict_comp_present out sel [] Hpres) as Hc.
  rewrite fmap_nil, app_nil_l in Hc. rewrite Hc.
  change (VDict <$> Ret ?l) with (@Ret (exn value) _ (VDict l)).
  do 2 f_equal. apply Forall_fmap_ext_1, Forall_forall.
  intros s Hs. apply elem_of_first_occurrences in Hs as [Hs _].
  unfold selected. rewrite (Hfind s Hs). reflexivity.
Qed.

Lemma get_subscription_dict_twice_test_train :
  resolve (VDict [(VStr "train", VInt 1); (VStr "val", VInt 2); (VStr "test", VInt 3)])
          [VStr "test"; VStr "train"]
    ≫= (fun narrowed => resolve narrowed [VStr "test"; VStr "train"])
  = Ret (VDict [(VStr "test", VInt 3); (VStr "train", VInt 1)]).
Proof.
  refine (get_subscription_dict_twice
            [(VStr "train", VInt 1); (VStr "val", VInt 2); (VStr "test", VInt 3)]
            ["test"; "train"] _ _).
  - discriminate.
  - repeat constructor; eexists; reflexivity.
Defined.

(** ** The items of a narrowed list are the items of the container *)

Lemma store_list_comp_Forall2 (f : Store.loc -> Store.res Store.loc) xs ys :
  Store.list_comp f xs = Ret ys -> Forall2 (fun x y => f x = Ret y) xs ys.
Proof.
  revert ys. induction xs as [| x xs IH]; intros ys.
  - intros [= <-]. constructor.
  - simpl. destruct (f x) as [y | e] eqn:Hx; [| discriminate].
    destruct (Store.list_comp f xs) as [ys' | e]; [| discriminate].
    intros [= <-]. constructor; [exact Hx | apply IH; reflexivity].
Qed.

(** X7. Narrowing a list copies no item. In the store model, with a list
    container and a subscription that starts with an int, a call that returns
    returns a list that was not in the store before, as long as the
    subscription, and every item of it is one of the objects that the
    container holds; a call that raises leaves the store as it was. *)
Theorem get_subscription_list_shares_items
    (h : Store.store) (r : Store.Requirement)
    (s0 : Store.loc) (sub items : list Store.loc) :
  Store.deref h (Store.subscription r) = Store.OList (s0 :: sub) ->
  Store.isinstance_int (Store.deref h s0) = true ->
  Store.deref h (Store.components r) = Store.OList items ->
  match Store.get_subscription h r with
  | (Ret l, h') =>
      h !! l = None
      /\ exists items', h' !! l = Some (Store.OList items')
           /\ length items' = length (s0 :: sub)
           /\ Forall (fun a => a ∈ items) items'
  | (Raise _, h') => h' = h
  end.
Proof.
  intros Hs Hs0 Hc. unfold Store.get_subscription.
  rewrite Hs, Hs0, Hc. simpl negb. cbv iota. simpl andb. cbv iota.
  destruct (Store.list_comp _ _) as [items' | e] eqn:Hl; [| reflexivity].
  simpl. split; [apply (StoreFacts.alloc_fresh h (Store.OList items')) |].
  exists items'. split; [apply lookup_insert_eq |].
  apply store_list_comp_Forall2 in Hl.
  split; [symmetry; exact (Forall2_length _ _ _ Hl) |].
  clear Hs. induction Hl as [| x y xs ys Hx _ IH]; constructor; [| exact IH].
  unfold Store.getitem_container in Hx. rewrite Hc in Hx.
  exact (StoreFacts.list_getitem_elem _ _ _ _ Hx).
Qed.

Lemma get_subscription_list_shares_items_abc :
  exists items',
    (Store.get_subscription abc_store (Store.mkRequirement 1 2)).2 !! 9%positive
    = Some (Store.OList items')
    /\ length items' = 2%nat
    /\ Forall (fun a => a ∈ [4; 5; 6]%positive) items'.
Proof.
  exact (proj2 (get_subscription_list_shares_items abc_store (Store.mkRequirement 1 2)
                  7%positive [8%positive] [4; 5; 6]%positive eq_refl eq_refl eq_refl)).
Defined.

(** ** Failures, then a success *)

Section ConstructMore.
Context {W : Type}.
Variable _construct_impl : ComponentConstructable -> W -> res value * W.

Lemma construct_n_unbuilt_raises (n : nat) (st : run W) e w :
  constructed (self st) = VNone ->
  _construct_impl (self st) (world st) = (Raise e, w) ->
  construct_n _construct_impl (S n) st
  = (Raise e :: (construct_n _construct_impl n (mkRun (self st) w (S (calls st)))).1,
     (construct_n _construct_impl n (mkRun (self st) w (S (calls st)))).2).
Proof.
  intros Hu Hp. simpl. rewrite (construct_unbuilt_raises _ _ _ _ Hu Hp).
  destruct (construct_n _ n _). reflexivity.
Qed.

(** X8. Failures are not remembered, the first success is. On a node that
    is not built, when the producer raises on its first [k] runs and then
    returns a value other than [None], the first [k] calls of [construct]
    raise those exceptions in turn, every later call returns the value, and
    the producer has been entered [k + 1] times, however many calls follow.
    [ws i] is the world before run [i]. *)
Theorem construct_retries_until_success
    (st : run W) (ws : nat -> W) (es : nat -> exn value)
    (k n : nat) (v : value) (w : W) :
  constructed (self st) = VNone ->
  ws 0%nat = world st ->
  (forall i, (i < k)%nat ->
     _construct_impl (self st) (ws i) = (Raise (es i), ws (S i))) ->
  _construct_impl (self st) (ws k) = (Ret v, w) ->
  v <> VNone ->
  construct_n _construct_impl (k + S n) st
  = (((fun i => Raise (es i)) <$> seq 0 k) ++ replicate (S n) (Ret v),
     mkRun (set_constructed v (self st)) w (calls st + k + 1))%list.
Proof.
  revert st ws es. induction k as [| k IH]; intros st ws es Hu H0 Hfail Hok Hv.
  - rewrite H0 in Hok. rewrite Nat.add_0_l. simpl.
    rewrite (construct_unbuilt_returns _ _ _ _ Hu Hok).
    rewrite construct_n_built by exact Hv. simpl.
    do 2 f_equal. lia.
  - assert (Hfirst : _construct_impl (self st) (world st) = (Raise (es 0%nat), ws 1%nat)).
    { rewrite <- H0. apply Hfail. lia. }
    change (S k + S n)%nat with (S (k + S n)).
    rewrite (construct_n_unbuilt_raises _ _ _ _ Hu Hfirst).
    rewrite (IH (mkRun (self st) (ws 1%nat) (S (calls st)))
                (fun i => ws (S i)) (fun i => es (S i)));
      [| exact Hu | reflexivity | intros i Hi; apply Hfail; lia | exact Hok | exact Hv].
    simpl. rewrite <- fmap_S_seq, <- list_fmap_compose.
    do 3 f_equal. lia.
Qed.

(** X9. A producer that returns [None] is never remembered: when the
    producer returns [None] in every world, [n] calls of [construct] on a
    node that is not built return [None] [n] times and enter the producer
    [n] times, and the node is still not built. *)
Theorem construct_None_never_cached (st : run W) (n : nat) :
  constructed (self st) = VNone ->
  (forall node w, (_construct_impl node w).1 = Ret VNone) ->
  (construct_n _construct_impl n st).1 = replicate n (Ret VNone)
  /\ calls (construct_n _construct_impl n st).2 = (calls st + n)%nat
  /\ constructed (self (construct_n _construct_impl n st).2) = VNone.
Proof.
  intros Hu Hnone. revert st Hu. induction n as [| n IH]; intros st Hu.
  - simpl. repeat split; [lia | exact Hu].
  - simpl. unfold construct. rewrite Hu. simpl.
    pose proof (Hnone (self st) (world st)) as Hp.
    destruct (_construct_impl (self st) (world st)) as [o w]. simpl in Hp. subst o.
    destruct (IH (mkRun (set_constructed VNone (self st)) w (S (calls st))) eq_refl)
      as (H1 & H2 & H3).
    destruct (construct_n _ n _) as [rs st2]. simpl in *.
    rewrite H1. repeat split; [lia | exact H3].
Qed.
End ConstructMore.

Lemma construct_retries_until_success_flaky :
  construct_n flaky_producer 4 (mkRun fresh_node 0%nat 0%nat)
  = ([Raise (OtherError "ConstructionError");
      Ret (VStr "artifact"); Ret (VStr "artifact"); Ret (VStr "artifact")],
     mkRun (set_constructed (VStr "artifact") fresh_node) 2%nat 2%nat).
Proof.
  refine (construct_retries_until_success flaky_producer
            (mkRun fresh_node 0%nat 0%nat) (fun i => i)
            (fun _ => OtherError "ConstructionError") 1 2
            (VStr "artifact") 2%nat eq_refl eq_refl _ eq_refl _).
  - intros i Hi. assert (i = 0%nat) as -> by lia. reflexivity.
  - discriminate.
Defined.

Lemma construct_None_never_cached_counting :
  (construct_n (counting_producer VNone) 3 (mkRun fresh_node 0%nat 0%nat)).1
  = [Ret VNone; Ret VNone; Ret VNone]
  /\ calls (construct_n (counting_producer VNone) 3 (mkRun fresh_node 0%nat 0%nat)).2
     = 3%nat.
Proof.
  destruct (construct_None_never_cached (counting_producer VNone)
              (mkRun fresh_node 0%nat 0%nat) 3 eq_refl (fun _ _ => eq_refl))
    as (H1 & H2 & _).
  split; [exact H1 | exact H2].
Defined.

(** ** Dicts *)

Ltac key_eqb_cases :=
  repeat match goal with
  | H : String.eqb _ _ = true |- _ => apply String.eqb_eq in H; subst
  | H : Pos.eqb _ _ = true |- _ => apply Pos.eqb_eq in H; subst
  | H : Z.eqb _ _ = true |- _ => apply Z.eqb_eq in H; try subst
  | H : true = false |- _ => discriminate H
  | H : false = true |- _ => discriminate H
  end.

Lemma key_eqb_sym a b : key_eqb a b = key_eqb b a.
Proof.
  destruct a, b; simpl; try reflexivity;
    first [apply Z.eqb_sym | apply String.eqb_sym | apply Pos.eqb_sym].
Qed.

Lemma key_eqb_trans a b c :
  key_eqb a b = true -> key_eqb b c = key_eqb a c.
Proof.
  destruct a, b, c; simpl; intros H; key_eqb_cases; try reflexivity;
    try (rewrite H; reflexivity); try (rewrite <- H; reflexivity).
Qed.

Lemma key_eqb_refl k : hashable k = true -> key_eqb k k = true.
Proof.
  destruct k; simpl; intros H; try reflexivity; try discriminate H.
  - apply Z.eqb_refl.
  - apply Z.eqb_refl.
  - apply String.eqb_refl.
  - apply Pos.eqb_refl.
Qed.

Lemma dict_find_None kvs k :
  dict_find kvs k = None <-> Forall (fun kv => key_eqb kv.1 k = false) kvs.
Proof.
  induction kvs as [| [k' v'] kvs IH]; simpl.
  - split; [constructor | reflexivity].
  - rewrite Forall_cons. simpl. destruct (key_eqb k' k).
    + split; [discriminate | intros [H _]; discriminate H].
    + rewrite IH. tauto.
Qed.

Lemma dict_find_key_eqb kvs k q :
  key_eqb k q = true -> dict_find kvs q = dict_find kvs k.
Proof.
  intros H. induction kvs as [| [k' v'] kvs IH]; [reflexivity |].
  simpl. rewrite IH.
  rewrite (key_eqb_sym k' q), (key_eqb_sym k' k).
  rewrite key_eqb_sym in H. rewrite (key_eqb_trans _ _ k' H). reflexivity.
Qed.

Lemma dict_setitem_fresh acc k v :
  dict_find acc k = None -> dict_setitem acc k v = (acc ++ [(k, v)])%list.
Proof.
  induction acc as [| [k' v'] acc IH]; [reflexivity |].
  simpl. destruct (key_eqb k' k); [discriminate |].
  intros H. rewrite (IH H). reflexivity.
Qed.

Lemma dict_find_app acc kvs q :
  dict_find (acc ++ kvs)%list q
  = match dict_find acc q with Some v => Some v | None => dict_find kvs q end.
Proof.
  induction acc as [| [k' v'] acc IH]; [reflexivity |].
  simpl. destruct (key_eqb k' q); [reflexivity | exact IH].
Qed.

Lemma dict_find_setitem acc k v q :
  dict_find (dict_setitem acc k v) q
  = if key_eqb k q then Some v else dict_find acc q.
Proof.
  induction acc as [| [k' v'] acc IH]; [reflexivity |].
  simpl. destruct (key_eqb k' k) eqn:Hk; simpl.
  - rewrite (key_eqb_trans _ _ q Hk). destruct (key_eqb k' q); reflexivity.
  - rewrite IH. destruct (key_eqb k' q) eqn:Hq; [| reflexivity].
    destruct (key_eqb k q) eqn:Hkq; [| reflexivity].
    rewrite key_eqb_sym in Hkq. rewrite (key_eqb_trans _ _ k Hq) in Hkq.
    congruence.
Qed.

Lemma dict_setitem_keys_prefix acc k v :
  exists extra, (dict_setitem acc k v).*1 = (acc.*1 ++ extra)%list.
Proof.
  induction acc as [| [k' v'] acc [extra IH]].
  - exists [k]. reflexivity.
  - simpl. destruct (key_eqb k' k).
    + exists []. rewrite app_nil_r. reflexivity.
    + exists extra. rewrite !fmap_cons, IH. reflexivity.
Qed.

Lemma dict_wf_rest k v rest q :
  dict_wf ((k, v) :: rest) -> q ∈ rest.*1 -> key_eqb k q = false.
Proof.
  intros (_ & Hf & _) Hq. apply dict_find_None in Hf.
  apply list_elem_of_fmap in Hq as ([q' v'] & -> & Hin).
  rewrite Forall_forall in Hf. rewrite key_eqb_sym. exact (Hf _ Hin).
Qed.

Lemma fresh_after_append acc k v y items :
  dict_wf ((k, v) :: items) ->
  Forall (fun kv => dict_find acc kv.1 = None) items ->
  Forall (fun kv => dict_find (acc ++ [(k, y)])%list kv.1 = None) items.
Proof.
  intros Hwf Hacc. apply Forall_forall. intros [q w] Hq.
  rewrite Forall_forall in Hacc. pose proof (Hacc _ Hq) as Hq'. simpl in *.
  rewrite dict_find_app, Hq'. simpl.
  rewrite (dict_wf_rest k v items q Hwf); [reflexivity |].
  apply list_elem_of_fmap. exists (q, w). split; [reflexivity | exact Hq].
Qed.

Lemma dict_comp_items_map g items acc :
  dict_wf items ->
  Forall (fun kv => dict_find acc kv.1 = None) items ->
  match dict_comp_items (fun _ _ => true) g items acc with
  | Ret out =>
      exists new, out = (acc ++ new)%list
        /\ Forall2 (fun kv kv' => kv'.1 = kv.1 /\ g kv.1 kv.2 = Ret kv'.2) items new
  | Raise e => exists kv, kv ∈ items /\ g kv.1 kv.2 = Raise e
  end.
Proof.
  revert acc. induction items as [| [k v] items IH]; intros acc Hwf Hacc.
  - exists []. rewrite app_nil_r. split; [reflexivity | constructor].
  - simpl. destruct (g k v) as [y | e] eqn:Hg.
    + pose proof Hwf as (Hh & Hk & Hwf'). rewrite Hh.
      apply Forall_cons in Hacc as [Hacck Hacc]. simpl in Hacck.
      rewrite (dict_setitem_fresh _ _ _ Hacck).
      specialize (IH (acc ++ [(k, y)])%list Hwf').
      destruct (dict_comp_items _ g items _) as [out | e].
      * destruct IH as (new & -> & Hnew).
        { exact (fresh_after_append _ _ _ y _ Hwf Hacc). }
        exists ((k, y) :: new). rewrite <- app_assoc. split; [reflexivity |].
        constructor; [split; [reflexivity | exact Hg] | exact Hnew].
      * destruct IH as (kv & Hin & He).
        { exact (fresh_after_append _ _ _ y _ Hwf Hacc). }
        exists kv. split; [right; exact Hin | exact He].
    + exists (k, v). split; [left | exact Hg].
Qed.

Lemma dict_comp_items_filter cond items acc :
  dict_wf items ->
  Forall (fun kv => dict_find acc kv.1 = None) items ->
  dict_comp_items cond (fun _ x => Ret x) items acc
  = Ret (acc ++ List.filter (fun kv => cond kv.1 kv.2) items)%list.
Proof.
  revert acc. induction items as [| [k v] items IH]; intros acc Hwf Hacc.
  - simpl. rewrite app_nil_r. reflexivity.
  - pose proof Hwf as (Hh & Hk & Hwf').
    apply Forall_cons in Hacc as [Hacck Hacc]. simpl in Hacck.
    simpl. destruct (cond k v).
    + rewrite Hh, (dict_setitem_fresh _ _ _ Hacck), IH; [| exact Hwf' |].
      * rewrite <- app_assoc. reflexivity.
      * exact (fresh_after_append _ _ _ v _ Hwf Hacc).
    + apply IH; assumption.
Qed.

Lemma map_applicable_splits_spec f applicable kvs :
  dict_wf kvs ->
  on_applicable_splits f applicable kvs
    (map_applicable_splits f applicable (VDict kvs)).
Proof.
  intros Hwf. unfold map_applicable_splits. simpl.
  pose proof (dict_comp_items_map
                (fun name iterator =>
                   if in_strs name applicable then f iterator else Ret iterator)
                kvs [] Hwf) as H.
  destruct (dict_comp_items _ _ kvs []) as [out | e]; simpl.
  - destruct H as (new & -> & Hnew).
    { apply Forall_forall. intros; reflexivity. }
    exists new. split; [reflexivity |].
    eapply Forall2_impl; [exact Hnew |].
    intros [k v] [k' v']. simpl. intros [-> Hg]. split; [reflexivity |].
    destruct (in_strs k applicable); [exact Hg | congruence].
  - destruct H as ([k v] & Hin & Hg).
    { apply Forall_forall. intros; reflexivity. }
    simpl in Hg. exists (k, v). simpl.
    destruct (in_strs k applicable); [| discriminate Hg].
    split; [exact Hin |]. split; [reflexivity | exact Hg].
Qed.

(** X10. The producers of [FilteredLabelsIteratorConstructable],
    [IteratorViewConstructable] and [MappedLabelsIteratorConstructable] keep
    the splits of the dict they require: when the requirement ["iterators"]
    resolves to a dict, they return a dict with the same keys in the same
    order, in which the iterator of a split that is not in
    [applicable_splits] is the one they were given and the iterator of an
    applicable split is what the factory returned for it; they raise only
    what the factory raises for an applicable split. *)
Theorem applicable_splits_producers
    (base : ComponentConstructable) (applicable : list string)
    (kvs : list (value * value)) :
  get_requirement base "iterators" = Ret (VDict kvs) ->
  dict_wf kvs ->
  (forall get_filtered_labels_iterator filtered_labels,
     on_applicable_splits
       (fun it => get_filtered_labels_iterator
                    (VStr (component_identifier base)) it filtered_labels)
       applicable kvs
       (FilteredLabelsIteratorConstructable._construct_impl
          get_filtered_labels_iterator
          (FilteredLabelsIteratorConstructable.mk base filtered_labels applicable)))
  /\ (forall get_iterator_view num_indices,
     on_applicable_splits
       (fun it => get_iterator_view (VStr (component_identifier base)) it
                    (IteratorViewConstructable.mkSelectionPartial num_indices))
       applicable kvs
       (IteratorViewConstructable._construct_impl get_iterator_view
          (IteratorViewConstructable.mk base num_indices applicable)))
  /\ (forall get_mapped_labels_iterator mappings,
     on_applicable_splits
       (fun it => get_mapped_labels_iterator
                    (VStr (component_identifier base)) it mappings)
       applicable kvs
       (MappedLabelsIteratorConstructable._construct_impl
          get_mapped_labels_iterator
          (MappedLabelsIteratorConstructable.mk base mappings applicable))).
Proof.
  intros Hreq Hwf. repeat split; intros ext x.
  - unfold FilteredLabelsIteratorConstructable._construct_impl. simpl.
    rewrite Hreq. apply map_applicable_splits_spec, Hwf.
  - unfold IteratorViewConstructable._construct_impl. simpl.
    rewrite Hreq. apply map_applicable_splits_spec, Hwf.
  - unfold MappedLabelsIteratorConstructable._construct_impl. simpl.
    rewrite Hreq. apply map_applicable_splits_spec, Hwf.
Qed.

Lemma applicable_splits_producers_train :
  FilteredLabelsIteratorConstructable._construct_impl wrapping_factory
    (FilteredLabelsIteratorConstructable.mk splits_node (VList [VInt 3]) ["train"])
  = Ret (VDict [(VStr "train", VList [VObj 1]); (VStr "val", VObj 2)])
  /\ on_applicable_splits
       (fun it => wrapping_factory (VStr "view") it (VList [VInt 3])) ["train"] two_splits
       (FilteredLabelsIteratorConstructable._construct_impl wrapping_factory
          (FilteredLabelsIteratorConstructable.mk splits_node (VList [VInt 3]) ["train"])).
Proof.
  split; [reflexivity |].
  refine (proj1 (applicable_splits_producers splits_node ["train"] two_splits
                   eq_refl _) wrapping_factory (VList [VInt 3])).
  repeat split.
Defined.

(** X11. The producer of [FeatureEncodedIteratorConstructable] returns the
    applicable splits only: when the factory returns a dict, the result is
    that dict without the entries whose key is not in [applicable_splits],
    the others in their order and with their values; with no applicable
    split it is the empty dict. *)
Theorem feature_encoded_keeps_applicable_only
    (get_feature_encoded_iterators : value -> value -> value -> res value)
    (self : FeatureEncodedIteratorConstructable.t)
    (d : value) (kvs : list (value * value)) :
  get_requirement (FeatureEncodedIteratorConstructable.base self) "iterators" = Ret d ->
  get_feature_encoded_iterators
    (VStr (component_identifier (FeatureEncodedIteratorConstructable.base self))) d
    (FeatureEncodedIteratorConstructable.feature_encoding_configs self)
  = Ret (VDict kvs) ->
  dict_wf kvs ->
  FeatureEncodedIteratorConstructable._construct_impl get_feature_encoded_iterators self
  = Ret (VDict (List.filter
                  (fun kv => in_strs kv.1
                               (FeatureEncodedIteratorConstructable.applicable_splits self))
                  kvs))
  /\ (FeatureEncodedIteratorConstructable.applicable_splits self = [] ->
      FeatureEncodedIteratorConstructable._construct_impl
        get_feature_encoded_iterators self
      = Ret (VDict [])).
Proof.
  intros Hreq Hext Hwf.
  assert (H : FeatureEncodedIteratorConstructable._construct_impl
                get_feature_encoded_iterators self
              = Ret (VDict (List.filter
                  (fun kv => in_strs kv.1
                               (FeatureEncodedIteratorConstructable.applicable_splits self))
                  kvs))).
  { unfold FeatureEncodedIteratorConstructable._construct_impl.
    rewrite Hreq. simpl. rewrite Hext. simpl.
    rewrite (dict_comp_items_filter
               (fun name _ => in_strs name
                  (FeatureEncodedIteratorConstructable.applicable_splits self))
               kvs [] Hwf); [reflexivity |].
    apply Forall_forall. intros; reflexivity. }
  split; [exact H |].
  intros Hnil. rewrite H, Hnil. do 2 f_equal.
  clear. induction kvs as [| [k v] kvs IH]; [reflexivity |].
  simpl. destruct k; exact IH.
Qed.

Lemma feature_encoded_keeps_applicable_only_val :
  FeatureEncodedIteratorConstructable._construct_impl (fun _ d _ => Ret d)
    (FeatureEncodedIteratorConstructable.mk splits_node ["val"; "test"] VNone)
  = Ret (VDict [(VStr "val", VObj 2)]).
Proof.
  refine (proj1 (feature_encoded_keeps_applicable_only (fun _ d _ => Ret d)
            (FeatureEncodedIteratorConstructable.mk splits_node ["val"; "test"] VNone)
            (VDict two_splits) two_splits eq_refl eq_refl _)).
  repeat split.
Defined.

(** ** Merging the new iterators into the given ones *)

Lemma dict_update_wf acc kvs :
  dict_wf kvs ->
  Forall (fun kv => dict_find acc kv.1 = None) kvs ->
  dict_update acc kvs = (acc ++ kvs)%list.
Proof.
  revert acc. induction kvs as [| [k v] kvs IH]; intros acc Hwf Hacc.
  - simpl. rewrite app_nil_r. reflexivity.
  - pose proof Hwf as (_ & _ & Hwf').
    apply Forall_cons in Hacc as [Hacck Hacc]. simpl in Hacck.
    unfold dict_update. simpl. rewrite (dict_setitem_fresh _ _ _ Hacck).
    fold (dict_update (acc ++ [(k, v)])%list kvs).
    rewrite IH; [rewrite <- app_assoc; reflexivity | exact Hwf' |].
    exact (fresh_after_append _ _ _ v _ Hwf Hacc).
Qed.

Lemma dict_find_update acc new q :
  dict_wf new ->
  dict_find (dict_update acc new) q
  = match dict_find new q with Some v => Some v | None => dict_find acc q end.
Proof.
  revert acc. induction new as [| [k v] new IH]; intros acc Hwf; [reflexivity |].
  pose proof Hwf as (_ & Hk & Hwf').
  unfold dict_update. simpl. fold (dict_update (dict_setitem acc k v) new).
  rewrite (IH _ Hwf'), dict_find_setitem.
  destruct (key_eqb k q) eqn:Hkq; [| reflexivity].
  rewrite (dict_find_key_eqb new k q Hkq), Hk. reflexivity.
Qed.

Lemma dict_update_keys_prefix acc new :
  exists extra, (dict_update acc new).*1 = (acc.*1 ++ extra)%list.
Proof.
  revert acc. induction new as [| [k v] new IH]; intros acc.
  - exists []. rewrite app_nil_r. reflexivity.
  - unfold dict_update. simpl. fold (dict_update (dict_setitem acc k v) new).
    destruct (IH (dict_setitem acc k v)) as [extra ->].
    destruct (dict_setitem_keys_prefix acc k v) as [extra' ->].
    exists (extra' ++ extra)%list. rewrite app_assoc. reflexivity.
Qed.

Lemma dict_merge_spec kvs new :
  dict_wf kvs -> dict_wf new ->
  exists out, dict_merge (VDict kvs) (VDict new) = Ret (VDict out)
    /\ (forall q, dict_find out q
                  = match dict_find new q with
                    | Some v => Some v
                    | None => dict_find kvs q
                    end)
    /\ take (length kvs) (out.*1) = kvs.*1.
Proof.
  intros Hwf Hnew. exists (dict_update kvs new). simpl.
  rewrite (dict_update_wf [] kvs Hwf) by (apply Forall_forall; intros; reflexivity).
  rewrite app_nil_l. split; [reflexivity |]. split.
  - intros q. apply dict_find_update, Hnew.
  - destruct (dict_update_keys_prefix kvs new) as [extra ->].
    rewrite <- (length_fmap fst kvs). apply take_app_length.
Qed.

(** X12. The producers of [DatasetIteratorSplitsConstructable] and
    [CombinedDatasetIteratorConstructable] add to the iterators they are
    given: when the requirement ["iterators"] resolves to a dict and the
    factory returns a dict, the result holds under every key what the factory
    returned for it and, where the factory returned nothing, what the given
    dict holds; the keys of the given dict come first, in their order. When
    the factory returns something that is no mapping, the producers raise
    [TypeError]. *)
Theorem merging_producers
    (factory : value -> value -> value -> res value)
    (base : ComponentConstructable) (configs made : value)
    (kvs : list (value * value)) :
  get_requirement base "iterators" = Ret (VDict kvs) ->
  factory (VStr (component_identifier base)) (VDict kvs) configs = Ret made ->
  dict_wf kvs ->
  DatasetIteratorSplitsConstructable._construct_impl factory
    (DatasetIteratorSplitsConstructable.mk base configs)
  = dict_merge (VDict kvs) made
  /\ CombinedDatasetIteratorConstructable._construct_impl factory
       (CombinedDatasetIteratorConstructable.mk base configs)
     = dict_merge (VDict kvs) made
  /\ (isinstance_Mapping made = false -> dict_merge (VDict kvs) made = Raise TypeError)
  /\ (forall new, made = VDict new -> dict_wf new ->
      exists out, dict_merge (VDict kvs) made = Ret (VDict out)
        /\ (forall q, dict_find out q
                      = match dict_find new q with
                        | Some v => Some v
                        | None => dict_find kvs q
                        end)
        /\ take (length kvs) (out.*1) = kvs.*1).
Proof.
  intros Hreq Hf Hwf. split; [| split; [| split]].
  - unfold DatasetIteratorSplitsConstructable._construct_impl. simpl.
    rewrite Hreq. simpl. rewrite Hf. reflexivity.
  - unfold CombinedDatasetIteratorConstructable._construct_impl. simpl.
    rewrite Hreq. simpl. rewrite Hf. reflexivity.
  - destruct made; try reflexivity. discriminate.
  - intros new -> Hnew. apply dict_merge_spec; assumption.
Qed.

Lemma merging_producers_two_splits :
  DatasetIteratorSplitsConstructable._construct_impl
    (fun _ _ _ => Ret (VDict [(VStr "val", VObj 7); (VStr "val_2", VObj 8)]))
    (DatasetIteratorSplitsConstructable.mk splits_node VNone)
  = Ret (VDict [(VStr "train", VObj 1); (VStr "val", VObj 7); (VStr "val_2", VObj 8)]).
Proof.
  refine (proj1 (merging_producers
            (fun _ _ _ => Ret (VDict [(VStr "val", VObj 7); (VStr "val_2", VObj 8)]))
            splits_node VNone
            (VDict [(VStr "val", VObj 7); (VStr "val_2", VObj 8)])
            two_splits eq_refl eq_refl _)).
  repeat split.
Defined.

(** ** The dict of the dataset splits *)

Lemma dict_setitem_str_keys acc seen s v :
  acc.*1 = VStr <$> seen ->
  (dict_setitem acc (VStr s) v).*1
  = VStr <$> (if decide (s ∈ seen) then seen else (seen ++ [s])%list).
Proof.
  revert seen. induction acc as [| [k w] acc IH]; intros seen Hk.
  - destruct seen; [| discriminate Hk]. simpl.
    destruct (decide (s ∈ [])) as [H | _]; [apply elem_of_nil in H as [] | reflexivity].
  - destruct seen as [| t seen]; [discriminate Hk |].
    rewrite !fmap_cons in Hk. simpl in Hk. injection Hk as -> Hk.
    simpl. destruct (String.eqb_spec t s) as [-> | Hne].
    + destruct (decide (s ∈ s :: seen)) as [_ | H]; [| exfalso; apply H; left].
      rewrite !fmap_cons. simpl. rewrite Hk. reflexivity.
    + rewrite fmap_cons. simpl. rewrite (IH _ Hk).
      destruct (decide (s ∈ seen)) as [Hin | Hin].
      * destruct (decide (s ∈ t :: seen)) as [_ | H];
          [reflexivity | exfalso; apply H; right; exact Hin].
      * destruct (decide (s ∈ t :: seen)) as [H | _]; [| reflexivity].
        apply elem_of_cons in H as [-> | H]; [congruence | contradiction].
Qed.

Section DatasetIteratorFacts.
Variable repository_get : value -> value -> value -> res (value * value).
Variable get_dataset_meta : value -> value -> value -> value -> res value.
Variable get_dataset_iterator : value -> value -> res value.

Let fill := DatasetIteratorConstructable.fill
              repository_get get_dataset_meta get_dataset_iterator.

Lemma fill_keys self repo todo acc seen out :
  acc.*1 = VStr <$> seen ->
  fill self repo todo acc = Ret out ->
  out.*1 = VStr <$> (seen ++ first_occurrences seen todo)%list.
Proof.
  revert acc seen. induction todo as [| s todo IH]; intros acc seen Hk.
  - simpl. intros [= <-]. rewrite app_nil_r. exact Hk.
  - simpl.
    destruct (repository_get _ _ _) as [[it im] | e]; [| discriminate].
    destruct (get_dataset_meta _ _ _ _) as [meta | e]; [| discriminate].
    destruct (get_dataset_iterator _ _) as [x | e]; [| discriminate].
    intros Hr.
    pose proof (dict_setitem_str_keys acc seen s x Hk) as Hk'.
    destruct (decide (s ∈ seen)).
    + exact (IH _ _ Hk' Hr).
    + rewrite (IH _ _ Hk' Hr), <- app_assoc. reflexivity.
Qed.

Lemma fill_returns self repo todo acc :
  (forall a b c, returns (repository_get a b c) = true) ->
  (forall a b c d, returns (get_dataset_meta a b c d) = true) ->
  (forall a b, returns (get_dataset_iterator a b) = true) ->
  returns (fill self repo todo acc) = true.
Proof.
  intros H1 H2 H3. revert acc. induction todo as [| s todo IH]; intros acc; [reflexivity |].
  simpl.
  pose proof (H1 repo (VStr (DatasetIteratorConstructable.dataset_identifier self))
                (VStr s)) as Hr.
  destruct (repository_get _ _ _) as [[it im] | e]; [| discriminate Hr].
  pose proof (H2 (VStr (component_identifier (DatasetIteratorConstructable.base self)))
                (VStr (DatasetIteratorConstructable.dataset_identifier self))
                (VStr s) im) as Hm.
  destruct (get_dataset_meta _ _ _ _) as [meta | e]; [| discriminate Hm].
  pose proof (H3 it meta) as Hi.
  destruct (get_dataset_iterator _ _) as [x | e]; [| discriminate Hi].
  apply IH.
Qed.

(** X13. The producer of [DatasetIteratorConstructable] looks up the
    requirement ["repository"] first, also when there is no split: without
    it, it raises [KeyError("repository")]. With it, a call that returns
    returns a dict whose keys are the splits, each once, in the order in
    which they first occur in [splits], and the call does return when the
    repository and the two factories do; with no split it returns the empty
    dict. *)
Theorem dataset_iterator_producer (self : DatasetIteratorConstructable.t) :
  (has_requirement (DatasetIteratorConstructable.base self) "repository" = false ->
   DatasetIteratorConstructable._construct_impl
     repository_get get_dataset_meta get_dataset_iterator self
   = Raise (KeyError (VStr "repository")))
  /\ (forall repo,
      get_requirement (DatasetIteratorConstructable.base self) "repository" = Ret repo ->
      (forall out,
         DatasetIteratorConstructable._construct_impl
           repository_get get_dataset_meta get_dataset_iterator self = Ret out ->
         exists kvs, out = VDict kvs
           /\ kvs.*1 = VStr <$> first_occurrences []
                                  (DatasetIteratorConstructable.splits self))
      /\ ((forall a b c, returns (repository_get a b c) = true) ->
          (forall a b c d, returns (get_dataset_meta a b c d) = true) ->
          (forall a b, returns (get_dataset_iterator a b) = true) ->
          returns (DatasetIteratorConstructable._construct_impl
                     repository_get get_dataset_meta get_dataset_iterator self) = true)
      /\ (DatasetIteratorConstructable.splits self = [] ->
          DatasetIteratorConstructable._construct_impl
            repository_get get_dataset_meta get_dataset_iterator self
          = Ret (VDict []))).
Proof.
  split.
  - intros H. apply has_requirement_false in H.
    unfold DatasetIteratorConstructable._construct_impl, get_requirement.
    rewrite H. reflexivity.
  - intros repo Hreq.
    unfold DatasetIteratorConstructable._construct_impl. rewrite Hreq. simpl.
    fold fill. split; [| split].
    + intros out.
      destruct (fill self repo _ []) as [kvs | e] eqn:Hf; [| discriminate].
      intros [= <-]. exists kvs. split; [reflexivity |].
      exact (fill_keys self repo _ [] [] kvs eq_refl Hf).
    + intros H1 H2 H3.
      pose proof (fill_returns self repo
                    (DatasetIteratorConstructable.splits self) [] H1 H2 H3) as Hr.
      destruct (fill self repo _ []); [reflexivity | discriminate Hr].
    + intros ->. reflexivity.
Qed.
End DatasetIteratorFacts.

Lemma dataset_iterator_producer_train_val :
  DatasetIteratorConstructable._construct_impl
    (fun _ _ split => Ret (split, VNone)) (fun _ _ _ _ => Ret VNone)
    (fun it _ => Ret it)
    (DatasetIteratorConstructable.mk
       (mkComponentConstructable "mnist" VNone
          {[ "repository" := mkRequirement (VObj 1) (VList []) ]})
       "mnist" ["train"; "val"; "train"])
  = Ret (VDict [(VStr "train", VStr "train"); (VStr "val", VStr "val")])
  /\ has_requirement fresh_node "repository" = false
  /\ DatasetIteratorConstructable._construct_impl
       (fun _ _ split => Ret (split, VNone)) (fun _ _ _ _ => Ret VNone)
       (fun it _ => Ret it)
       (DatasetIteratorConstructable.mk fresh_node "mnist" [])
     = Raise (KeyError (VStr "repository")).
Proof.
  split; [reflexivity |]. split; [reflexivity |].
  exact (proj1 (dataset_iterator_producer
                  (fun _ _ split => Ret (split, VNone)) (fun _ _ _ _ => Ret VNone)
                  (fun it _ => Ret it)
                  (DatasetIteratorConstructable.mk fresh_node "mnist" []))
               eq_refl).
Defined.

(** ** Calling the partial object of get_partial_metric *)

Lemma kw_find_set acc k v name :
  MetricClass.kw_find (kw_set acc k v) name
  = if String.eqb k name then Some v else MetricClass.kw_find acc name.
Proof.
  induction acc as [| [k' v'] acc IH]; [reflexivity |].
  simpl. destruct (String.eqb_spec k' k) as [-> | Hne]; simpl.
  - destruct (String.eqb k name); reflexivity.
  - rewrite IH. destruct (String.eqb_spec k' name) as [-> | Hn]; [| reflexivity].
    destruct (String.eqb_spec k name); [congruence | reflexivity].
Qed.

Lemma kw_find_None kw name : name ∉ kw.*1 -> MetricClass.kw_find kw name = None.
Proof.
  induction kw as [| [k v] kw IH]; [reflexivity |].
  rewrite fmap_cons. simpl. intros Hn.
  destruct (String.eqb_spec k name) as [-> | _].
  - exfalso. apply Hn. left.
  - apply IH. intros H. apply Hn. right. exact H.
Qed.

Lemma kw_find_merge base kw name :
  NoDup (kw.*1) ->
  MetricClass.kw_find (kw_merge base kw) name
  = match MetricClass.kw_find kw name with
    | Some v => Some v
    | None => MetricClass.kw_find base name
    end.
Proof.
  revert base. induction kw as [| [k v] kw IH]; intros base Hnd; [reflexivity |].
  rewrite fmap_cons in Hnd. apply NoDup_cons in Hnd as [Hk Hnd]. simpl in Hk.
  change (kw_merge base ((k, v) :: kw)) with (kw_merge (kw_set base k v) kw).
  rewrite (IH _ Hnd), kw_find_set. simpl.
  destruct (String.eqb_spec k name) as [-> | _]; [| reflexivity].
  rewrite (kw_find_None _ _ Hk). reflexivity.
Qed.

Lemma kw_set_keys acc k v name :
  name ∈ (kw_set acc k v).*1 <-> name ∈ acc.*1 \/ name = k.
Proof.
  induction acc as [| [k' v'] acc IH].
  - cbn. rewrite list_elem_of_singleton. split; [right; assumption |].
    intros [H | H]; [apply elem_of_nil in H as [] | exact H].
  - cbn [kw_set]. destruct (String.eqb_spec k' k) as [-> | Hne];
      rewrite !fmap_cons, !elem_of_cons; cbn [fst]; [tauto | rewrite IH; tauto].
Qed.

Lemma kw_merge_keys base kw name :
  name ∈ (kw_merge base kw).*1 <-> name ∈ base.*1 \/ name ∈ kw.*1.
Proof.
  revert base. induction kw as [| [k v] kw IH]; intros base.
  - simpl. split; [left; assumption |].
    intros [H | H]; [exact H | apply elem_of_nil in H as []].
  - change (kw_merge base ((k, v) :: kw)) with (kw_merge (kw_set base k v) kw).
    rewrite IH, kw_set_keys, fmap_cons, elem_of_cons. cbn [fst]. tauto.
Qed.

Lemma forallb_elem {A} (P : A -> bool) l x :
  x ∈ l -> P x = false -> forallb P l = false.
Proof.
  intros Hin HP. induction l as [| y l IH]; [apply elem_of_nil in Hin as [] |].
  simpl. apply elem_of_cons in Hin as [<- | Hin].
  - rewrite HP. reflexivity.
  - rewrite (IH Hin). apply andb_false_r.
Qed.

Lemma existsb_eqb_elem (name : string) l :
  existsb (String.eqb name) l = true <-> name ∈ l.
Proof.
  induction l as [| x l IH]; simpl.
  - split; [discriminate | intros H; apply elem_of_nil in H as []].
  - rewrite orb_true_iff, IH, elem_of_cons.
    destruct (String.eqb_spec name x); split; intros [H | H]; auto; discriminate.
Qed.

(** A keyword that names none of the parameters left makes the call fail. *)
Lemma bind_args_unexpected names call_args kw name :
  name ∈ kw.*1 -> name ∉ drop (length call_args) names ->
  MetricClass.bind_args names call_args kw = Raise TypeError.
Proof.
  intros Hin Hout. unfold MetricClass.bind_args.
  destruct (length names <? length call_args)%nat; [reflexivity |].
  rewrite (forallb_elem _ _ name Hin); [reflexivity |].
  destruct (existsb _ _) eqn:He; [| reflexivity].
  apply existsb_eqb_elem in He. contradiction.
Qed.

Lemma init_unexpected call_args kw name :
  name ∈ kw.*1 -> name ∉ drop (length call_args) MetricClass.parameters ->
  MetricClass.__init__ call_args kw = Raise TypeError.
Proof.
  intros Hin Hout. unfold MetricClass.__init__.
  rewrite (bind_args_unexpected _ _ _ _ Hin Hout). reflexivity.
Qed.

Lemma kwargs_extend_keys kw kvs kw' name :
  kwargs_extend kw kvs = Ret kw' ->
  name ∈ kw'.*1 <-> name ∈ kw.*1 \/ exists v, (VStr name, v) ∈ kvs.
Proof.
  revert kw. induction kvs as [| [k v] kvs IH]; intros kw.
  - simpl. intros [= <-]. split; [left; assumption |].
    intros [H | [v H]]; [exact H | apply elem_of_nil in H as []].
  - simpl. destruct k; try discriminate.
    destruct (existsb _ _); [discriminate |].
    intros Hr. rewrite (IH _ Hr), fmap_app, elem_of_app. simpl.
    rewrite list_elem_of_singleton. split.
    + intros [[H | ->] | [w H]]; [left; exact H | right; exists v; left |].
      right. exists w. right. exact H.
    + intros [H | [w H]]; [left; left; exact H |].
      apply elem_of_cons in H as [[= -> ->] | H]; [left; right; reflexivity |].
      right. exists w. exact H.
Qed.

Lemma get_partial_metric_keywords k f params p :
  get_partial_metric k f params = Ret p ->
  func p = Metric /\ args p = []
  /\ "identifier" ∈ (keywords p).*1
  /\ forall kvs name v, params = Some (VDict kvs) -> (VStr name, v) ∈ kvs ->
       name ∈ (keywords p).*1.
Proof.
  unfold get_partial_metric.
  destruct (call_kwargs _ _) as [kw |] eqn:Hk; [| discriminate].
  intros [= <-]. simpl. split; [reflexivity |]. split; [reflexivity |].
  unfold call_kwargs in Hk.
  destruct (if is_None (default VNone params) then VDict [] else default VNone params)
    as [| | | | | kvs0 |] eqn:Hp; try discriminate Hk.
  split.
  - apply (kwargs_extend_keys _ _ _ "identifier" Hk). left. left.
  - intros kvs name v -> Hin. simpl in Hp. injection Hp as <-.
    apply (kwargs_extend_keys _ _ _ name Hk). right. exists v. exact Hin.
Qed.

Lemma kwargs_extend_str_keyed kw skvs :
  NoDup (kw.*1 ++ skvs.*1)%list ->
  kwargs_extend kw (str_keyed skvs) = Ret (kw ++ skvs)%list.
Proof.
  revert kw. induction skvs as [| [s v] skvs IH]; intros kw Hnd.
  - simpl. rewrite app_nil_r. reflexivity.
  - unfold str_keyed. rewrite fmap_cons. fold (str_keyed skvs). cbn [kwargs_extend fst snd].
    rewrite fmap_cons in Hnd. cbn [fst] in Hnd.
    destruct (existsb (String.eqb s) (kw.*1)) eqn:He.
    + apply existsb_eqb_elem in He. apply NoDup_app in Hnd as (_ & Hdisj & _).
      exfalso. apply (Hdisj s He). left.
    + rewrite IH; [rewrite <- app_assoc; reflexivity |].
      rewrite fmap_app, <- app_assoc. exact Hnd.
Qed.

(** X14. What [get_partial_metric] binds cannot be taken back. When
    [params] is a dict with str keys, none of them [identifier] or
    [metric_fun], and one of them is no parameter of [Metric.__init__] (a
    keyword meant for the metric function, say), [get_partial_metric] returns
    the partial object with those keywords bound after [identifier] and
    [metric_fun], and every call of it raises [TypeError], whatever the
    arguments. *)
Theorem partial_metric_unknown_param
    (metric_key metric_fun : value) (skvs : list (string * value)) (name : string) :
  NoDup (skvs.*1) ->
  "identifier" ∉ skvs.*1 ->
  "metric_fun" ∉ skvs.*1 ->
  name ∈ skvs.*1 ->
  name ∉ MetricClass.parameters ->
  get_partial_metric metric_key metric_fun (Some (VDict (str_keyed skvs)))
  = Ret (mkPartial Metric []
           ([("identifier", metric_key); ("metric_fun", metric_fun)] ++ skvs)%list)
  /\ forall call_args kw,
       partial_call
         (mkPartial Metric []
            ([("identifier", metric_key); ("metric_fun", metric_fun)] ++ skvs)%list)
         call_args kw
       = Raise TypeError.
Proof.
  intros Hnd Hid Hmf Hin Hout. split.
  - assert (Hk : call_kwargs [("identifier", metric_key); ("metric_fun", metric_fun)]
                   (VDict (str_keyed skvs))
                 = Ret ([("identifier", metric_key); ("metric_fun", metric_fun)]
                          ++ skvs)%list).
    { unfold call_kwargs. apply kwargs_extend_str_keyed.
      rewrite !fmap_cons, fmap_nil. cbn [fst app].
      apply NoDup_cons. split.
      { intros H. apply elem_of_cons in H as [H | H]; [discriminate H | contradiction]. }
      apply NoDup_cons. split; [exact Hmf | exact Hnd]. }
    unfold get_partial_metric.
    change (default VNone (Some (VDict (str_keyed skvs)))) with (VDict (str_keyed skvs)).
    change (is_None (VDict (str_keyed skvs))) with false. cbv iota.
    rewrite Hk. reflexivity.
  - intros call_args kw. unfold partial_call. cbn [func args keywords].
    rewrite app_nil_l.
    apply (init_unexpected _ _ name).
    + apply (kw_merge_keys _ kw name). left.
      rewrite fmap_app. apply elem_of_app. right. exact Hin.
    + intros H. apply Hout. exact (subseteq_drop _ _ _ H).
Qed.

(** X15. The partial object takes at most one positional argument, the
    tag: the second parameter of [Metric.__init__] is [identifier], which is
    bound already, so a call with two or more positional arguments raises
    [TypeError]. *)
Theorem partial_metric_two_positional
    (metric_key metric_fun : value) (params : option value) (p : partial)
    (call_args : list value) (kw : list (string * value)) :
  get_partial_metric metric_key metric_fun params = Ret p ->
  (2 <= length call_args)%nat ->
  partial_call p call_args kw = Raise TypeError.
Proof.
  intros Hp Hlen.
  destruct (get_partial_metric_keywords _ _ _ _ Hp) as (Hf & Ha & Hid & _).
  unfold partial_call. rewrite Hf, Ha. simpl.
  apply (init_unexpected _ _ "identifier").
  - apply (kw_merge_keys (keywords p) kw "identifier"). left. exact Hid.
  - destruct call_args as [| a1 [| a2 rest]]; simpl in Hlen; try lia.
    simpl. intros H.
    assert (Hsub : "identifier" ∈ ["target_subscription_key";
                     "prediction_subscription_key"; "metric_fun"; "params"]).
    { exact (subseteq_drop _ _ _ H). }
    repeat (apply elem_of_cons in Hsub as [Hsub | Hsub]; [discriminate Hsub |]).
    apply elem_of_nil in Hsub as [].
Qed.

Lemma partial_metric_unknown_param_average :
  get_partial_metric (VStr "F1_SCORE") (VObj 5)
    (Some (VDict [(VStr "average", VStr "macro")]))
  = Ret (mkPartial Metric []
           [("identifier", VStr "F1_SCORE"); ("metric_fun", VObj 5);
            ("average", VStr "macro")])
  /\ partial_call
       (mkPartial Metric []
          [("identifier", VStr "F1_SCORE"); ("metric_fun", VObj 5);
           ("average", VStr "macro")])
       [VStr "f1"]
       [("target_subscription_key", VStr "y");
        ("prediction_subscription_key", VStr "p"); ("params", VDict [])]
     = Raise TypeError.
Proof.
  assert (Hnd : NoDup ([("average", VStr "macro")].*1)).
  { apply (bool_decide_unpack _). vm_compute. exact I. }
  assert (Hid : "identifier" ∉ [("average", VStr "macro")].*1).
  { apply (bool_decide_unpack _). vm_compute. exact I. }
  assert (Hmf : "metric_fun" ∉ [("average", VStr "macro")].*1).
  { apply (bool_decide_unpack _). vm_compute. exact I. }
  assert (Hin : "average" ∈ [("average", VStr "macro")].*1).
  { apply (bool_decide_unpack _). vm_compute. exact I. }
  assert (Hout : "average" ∉ MetricClass.parameters).
  { apply (bool_decide_unpack _). vm_compute. exact I. }
  destruct (partial_metric_unknown_param (VStr "F1_SCORE") (VObj 5)
              [("average", VStr "macro")] "average" Hnd Hid Hmf Hin Hout)
    as [Hret Hcall].
  split; [exact Hret |].
  exact (Hcall [VStr "f1"]
           [("target_subscription_key", VStr "y");
            ("prediction_subscription_key", VStr "p"); ("params", VDict [])]).
Defined.

Lemma partial_metric_two_positional_tag_id :
  partial_call
    (mkPartial Metric [] [("identifier", VStr "AUROC"); ("metric_fun", VObj 5)])
    [VStr "tag"; VStr "AUROC"]
    [("target_subscription_key", VStr "y"); ("prediction_subscription_key", VStr "p");
     ("metric_fun", VObj 5); ("params", VDict [])]
  = Raise TypeError.
Proof.
  refine (partial_metric_two_positional (VStr "AUROC") (VObj 5) None _ _ _ eq_refl _).
  simpl. lia.
Defined.

Lemma bind_args_keywords kw vs :
  Forall (fun name => name ∈ MetricClass.parameters) (kw.*1) ->
  mapM (MetricClass.kw_find kw) MetricClass.parameters = Some vs ->
  MetricClass.bind_args MetricClass.parameters [] kw = Ret vs.
Proof.
  intros Hall Hvs. unfold MetricClass.bind_args.
  change (length MetricClass.parameters <? length (@nil value))%nat with false.
  change (drop (length (@nil value)) MetricClass.parameters)
    with MetricClass.parameters.
  cbv iota. replace (forallb _ _) with true; [rewrite Hvs; reflexivity |].
  symmetry. apply forallb_forall. intros name Hin.
  apply existsb_eqb_elem. rewrite Forall_forall in Hall.
  apply Hall, list_elem_of_In, Hin.
Qed.

(** X16. The partial object completed. Called with keyword arguments that
    name parameters of [Metric.__init__] only, [tag],
    [target_subscription_key], [prediction_subscription_key] and [params]
    among them, the partial object that [get_partial_metric(metric_key,
    metric_fun)] returns gives the [Metric] with these four attributes as
    passed, in whatever order they are passed, and with the [identifier] and
    the [metric_fun] that were bound, unless the call passes its own. *)
Theorem partial_metric_call
    (metric_key metric_fun : value) (kw : list (string * value))
    (t a b ps : value) :
  NoDup (kw.*1) ->
  Forall (fun name => name ∈ MetricClass.parameters) (kw.*1) ->
  MetricClass.kw_find kw "tag" = Some t ->
  MetricClass.kw_find kw "target_subscription_key" = Some a ->
  MetricClass.kw_find kw "prediction_subscription_key" = Some b ->
  MetricClass.kw_find kw "params" = Some ps ->
  get_partial_metric metric_key metric_fun None ≫= (fun p => partial_call p [] kw)
  = Ret {| MetricClass.tag := t;
           MetricClass.identifier :=
             default metric_key (MetricClass.kw_find kw "identifier");
           MetricClass.metric_fun :=
             default metric_fun (MetricClass.kw_find kw "metric_fun");
           MetricClass.params := ps;
           MetricClass.target_subscription_key := a;
           MetricClass.prediction_subscription_key := b |}.
Proof.
  intros Hnd Hall Ht Ha Hb Hps.
  change (get_partial_metric metric_key metric_fun None)
    with (@Ret (exn value) _
            (mkPartial Metric []
               [("identifier", metric_key); ("metric_fun", metric_fun)])).
  change (Ret ?p ≫= ?g) with (g p). cbv beta.
  unfold partial_call. cbn [func args keywords app].
  fold (kw_merge [("identifier", metric_key); ("metric_fun", metric_fun)] kw).
  set (merged := kw_merge _ kw).
  assert (Hfind : forall name,
            MetricClass.kw_find merged name
            = match MetricClass.kw_find kw name with
              | Some v => Some v
              | None => MetricClass.kw_find
                          [("identifier", metric_key); ("metric_fun", metric_fun)] name
              end).
  { intros name. apply kw_find_merge, Hnd. }
  unfold MetricClass.__init__.
  rewrite (bind_args_keywords merged
             [t; default metric_key (MetricClass.kw_find kw "identifier"); a; b;
              default metric_fun (MetricClass.kw_find kw "metric_fun"); ps]).
  - reflexivity.
  - apply Forall_forall. intros name Hin.
    apply (kw_merge_keys _ kw name) in Hin as [Hin | Hin].
    + simpl in Hin. unfold MetricClass.parameters.
      repeat (apply elem_of_cons in Hin as [-> | Hin];
              [repeat first [apply list_elem_of_here | apply list_elem_of_further] |]).
      apply elem_of_nil in Hin as [].
    + rewrite Forall_forall in Hall. exact (Hall _ Hin).
  - unfold MetricClass.parameters. cbn [mapM].
    rewrite !Hfind, Ht, Ha, Hb, Hps.
    destruct (MetricClass.kw_find kw "identifier"),
             (MetricClass.kw_find kw "metric_fun"); reflexivity.
Qed.

Lemma partial_metric_call_f1 :
  get_partial_metric (VStr "F1_SCORE") (VObj 5) None
    ≫= (fun p => partial_call p []
          [("params", VDict []); ("prediction_subscription_key", VStr "p");
           ("tag", VStr "f1"); ("target_subscription_key", VStr "y")])
  = Ret {| MetricClass.tag := VStr "f1";
           MetricClass.identifier := VStr "F1_SCORE";
           MetricClass.metric_fun := VObj 5;
           MetricClass.params := VDict [];
           MetricClass.target_subscription_key := VStr "y";
           MetricClass.prediction_subscription_key := VStr "p" |}.
Proof.
  refine (partial_metric_call (VStr "F1_SCORE") (VObj 5)
            [("params", VDict []); ("prediction_subscription_key", VStr "p");
             ("tag", VStr "f1"); ("target_subscription_key", VStr "y")]
            (VStr "f1") (VStr "y") (VStr "p") (VDict [])
            _ _ eq_refl eq_refl eq_refl eq_refl).
  - apply (bool_decide_unpack _). vm_compute. exact I.
  - apply (bool_decide_unpack _). vm_compute. exact I.
Defined.
